(** * rStep infrared decoder (ir_rStep.cpp): shallow embedding and properties

    The decoder of [ir_rStep.cpp] is embedded as it is written: the two
    64-bit accumulators [real_biphase_bits] and [real_data_bits] are
    integers updated with [Z.lor] and [Z.shiftl], their running bit counts
    are integers, and the caller's [decode_results] object is a state that
    is threaded through every statement.  A C shift whose count is not
    below the width of its operand has no defined result; the embedding
    makes that outcome explicit instead of choosing one.  The diagnostic
    output ([DBG_PRINT], the blocks under [DEBUG]) is compiled out by
    default and is not part of the embedding. *)

From Stdlib Require Import ZArith List Bool Lia.
Import ListNotations.
Local Open Scope Z_scope.

(** ** The declarations of IRremote.h the decoder relies on *)

(** Modelled from the spec: the protocol tag of IRremote.h ([decode_type_t]);
    the header is not part of the sources, so only the tag a fresh result
    carries and the tag this decoder writes are listed. *)
Inductive decode_type_t : Type :=
| UNKNOWN
| UNUSED
| RSTEP.

(** The widths of [unsigned int] (the type of [decode_results::address])
    and of [unsigned long] (the type of [decode_results::value]) are those
    of the board the library is built for; they are parameters here.  C
    guarantees at least 16 and 32 bits. *)
Class Platform : Type := {
  UINT_BITS : Z;
  ULONG_BITS : Z;
  UINT_BITS_min : 16 <= UINT_BITS;
  ULONG_BITS_min : 32 <= ULONG_BITS
}.

(** Modelled from the spec: the caller-supplied result structure of
    IRremote.h, with the fields the decoder reads or writes.  [rawbuf] and
    [rawlen] are the capture ([rawlen] entries, slot 0 being the gap before
    the frame); the pair is kept as one list. *)
Record decode_results : Type := mk_decode_results {
  decode_type : decode_type_t;
  address : Z;
  value : Z;
  bits : Z;
  rawbuf : list Z
}.

Definition rawlen (results : decode_results) : Z :=
  Z.of_nat (length (rawbuf results)).

Definition set_decode_type (t : decode_type_t) (r : decode_results) :=
  mk_decode_results t (address r) (value r) (bits r) (rawbuf r).
Definition set_address (a : Z) (r : decode_results) :=
  mk_decode_results (decode_type r) a (value r) (bits r) (rawbuf r).
Definition set_value (v : Z) (r : decode_results) :=
  mk_decode_results (decode_type r) (address r) v (bits r) (rawbuf r).
Definition set_bits (b : Z) (r : decode_results) :=
  mk_decode_results (decode_type r) (address r) (value r) b (rawbuf r).

(** ** Statements: state, early return, undefined behaviour *)

Inductive step (A : Type) : Type :=
| Undefined : step A
| Returned : bool -> decode_results -> step A
| Normal : A -> decode_results -> step A.
Arguments Undefined {A}.
Arguments Returned {A} _ _.
Arguments Normal {A} _ _.

Definition M (A : Type) : Type := decode_results -> step A.

Definition ret {A} (a : A) : M A := fun r => Normal a r.

Definition bind {A B} (m : M A) (k : A -> M B) : M B :=
  fun r =>
    match m r with
    | Undefined => Undefined
    | Returned b r' => Returned b r'
    | Normal a r' => k a r'
    end.

Notation "x <- m ;; k" := (bind m (fun x => k))
  (at level 61, m at next level, right associativity).
Notation "m ;;; k" := (bind m (fun _ => k))
  (at level 61, right associativity).

Definition undefined {A} : M A := fun _ => Undefined.
Definition return_ {A} (b : bool) : M A := fun r => Returned b r.
Definition read {A} (f : decode_results -> A) : M A := fun r => Normal (f r) r.
Definition write (f : decode_results -> decode_results) : M unit :=
  fun r => Normal tt (f r).

(** A call of a [bool] function: its [return] is the value of the call. *)
Definition call (body : M bool) : M bool :=
  fun r =>
    match body r with
    | Undefined => Undefined
    | Returned b r' => Normal b r'
    | Normal b r' => Normal b r'
    end.

(** The values [i] takes in [for (i = lo; i < hi; i += stride)]. *)
Definition for_range (lo hi stride : Z) : list Z :=
  map (fun k => lo + stride * Z.of_nat k)
      (seq 0 (Z.to_nat ((hi - lo + stride - 1) / stride))).

Fixpoint for_each {S : Type} (idx : list Z) (body : Z -> S -> M S) (s : S)
  : M S :=
  match idx with
  | [] => ret s
  | i :: rest => s' <- body i s ;; for_each rest body s'
  end.

(** A loop over the slots of an array, read one after the other. *)
Fixpoint for_slots {S : Type} (body : Z -> Z -> S -> M S) (i : Z)
  (slots : list Z) (s : S) : M S :=
  match slots with
  | [] => ret s
  | t :: rest => s' <- body i t s ;; for_slots body (i + 1) rest s'
  end.

(** ** 64-bit and result-field arithmetic *)

(** [x << n] on [uint64_t]. *)
Definition shl64 (x n : Z) : M Z :=
  if (0 <=? n) && (n <? 64) then ret (Z.shiftl x n mod 2 ^ 64) else undefined.

(** [!! (x & (1ULL << i))] *)
Definition test_bit64 (x i : Z) : M Z :=
  m <- shl64 1 i ;;
  ret (if Z.land x m =? 0 then 0 else 1).

(** [acc |= lvl << num++] *)
Definition push_bit (lvl : Z) (st : Z * Z) : M (Z * Z) :=
  let '(acc, num) := st in
  m <- shl64 lvl num ;;
  ret (Z.lor acc m, num + 1).

(** ** The tick tables *)

Definition RSTEP_SHORT_PULSE_38k_MIN_TICKS := 4.
Definition RSTEP_SHORT_PULSE_38k_MAX_TICKS := 10.
Definition RSTEP_LONG_PULSE_38k_MIN_TICKS := 11.
Definition RSTEP_LONG_PULSE_38k_MAX_TICKS := 16.

Definition RSTEP_SHORT_PULSE_56k_MIN_TICKS := 2.
Definition RSTEP_SHORT_PULSE_56k_MAX_TICKS := 6.
Definition RSTEP_LONG_PULSE_56k_MIN_TICKS := 7.
Definition RSTEP_LONG_PULSE_56k_MAX_TICKS := 11.

(** ** decodeRstepInternal *)

Section Internal.
Context {P : Platform}.
Variables short_min_ticks short_max_ticks long_min_ticks long_max_ticks : Z.

(** Part I, one slot: [rawbuf[i]] is cut into one or two unit-time bits.
    The state is [(real_biphase_bits, num_real_biphase_bits)]. *)
Definition cut_slot (i t : Z) (st : Z * Z) : M (Z * Z) :=
  if i mod 2 =? 1 then
    if (short_min_ticks <=? t) && (t <=? short_max_ticks) then
      push_bit 1 st
    else if (long_min_ticks <=? t) && (t <=? long_max_ticks) then
      st' <- push_bit 1 st ;; push_bit 1 st'
    else return_ false
  else
    if (short_min_ticks <=? t) && (t <=? short_max_ticks) then
      push_bit 0 st
    else if (long_min_ticks <=? t) && (t <=? long_max_ticks) then
      st' <- push_bit 0 st ;; push_bit 0 st'
    else return_ false.

(** Part I: [for (i = 1; i < results->rawlen; i++)]. *)
Definition cut_pulses : M (Z * Z) :=
  len <- read rawlen ;;
  buf <- read rawbuf ;;
  for_each (for_range 1 len 1)
           (fun i st => cut_slot i (nth (Z.to_nat i) buf 0) st)
           (0, 0).

(** Part II: [if (num_real_biphase_bits % 2) num_real_biphase_bits++]. *)
Definition pad_space (st : Z * Z) : Z * Z :=
  let '(biphase, num) := st in
  if num mod 2 =? 0 then (biphase, num) else (biphase, num + 1).

(** Part III, one pair.  The state is
    [(real_data_bits, num_real_data_bits)]. *)
Definition dissect_pair (real_biphase_bits i : Z) (st : Z * Z) : M (Z * Z) :=
  lower_bit <- test_bit64 real_biphase_bits (i + 0) ;;
  higher_bit <- test_bit64 real_biphase_bits (i + 1) ;;
  if lower_bit =? higher_bit then return_ false
  else if negb (lower_bit =? 0) then push_bit 1 st
  else push_bit 0 st.

(** Part III: [for (i = 0; i < num_real_biphase_bits; i += 2)]. *)
Definition dissect_biphase (chips : Z * Z) : M (Z * Z) :=
  let '(real_biphase_bits, num_real_biphase_bits) := chips in
  for_each (for_range 0 num_real_biphase_bits 2)
           (dissect_pair real_biphase_bits)
           (0, 0).

(** [results->value <<= 1; results->value |= !! (real_data_bits & (1ULL << i))] *)
Definition copy_value_bit (real_data_bits i : Z) (_ : unit) : M unit :=
  v <- read value ;;
  write (set_value (Z.shiftl v 1 mod 2 ^ ULONG_BITS)) ;;;
  b <- test_bit64 real_data_bits i ;;
  v <- read value ;;
  write (set_value (Z.lor v b)).

(** [results->address <<= 1; results->address |= !! (real_data_bits & (1ULL << i))] *)
Definition copy_address_bit (real_data_bits i : Z) (_ : unit) : M unit :=
  a <- read address ;;
  write (set_address (Z.shiftl a 1 mod 2 ^ UINT_BITS)) ;;;
  b <- test_bit64 real_data_bits i ;;
  a <- read address ;;
  write (set_address (Z.lor a b)).

(** The copy of the decoded frame to the return buffer. *)
Definition copy_result (data : Z * Z) : M unit :=
  let '(real_data_bits, num_real_data_bits) := data in
  write (set_decode_type RSTEP) ;;;
  write (set_bits (num_real_data_bits - 10)) ;;;
  write (set_value 0) ;;;
  for_each (for_range 10 num_real_data_bits 1)
           (copy_value_bit real_data_bits) tt ;;;
  write (set_address 0) ;;;
  for_each (for_range 1 10 1) (copy_address_bit real_data_bits) tt.

Definition decodeRstepInternal_body : M bool :=
  chips <- cut_pulses ;;
  data <- dissect_biphase (pad_space chips) ;;
  (if snd data <? 10 then return_ false else ret tt) ;;;
  copy_result data ;;;
  return_ true.

Definition decodeRstepInternal : M bool := call decodeRstepInternal_body.
End Internal.

(** ** decodeRstep *)

Definition decodeRstep {P : Platform} : M bool :=
  call (
    fast <- decodeRstepInternal
              RSTEP_SHORT_PULSE_38k_MIN_TICKS RSTEP_SHORT_PULSE_38k_MAX_TICKS
              RSTEP_LONG_PULSE_38k_MIN_TICKS RSTEP_LONG_PULSE_38k_MAX_TICKS ;;
    if fast then return_ true
    else
      slow <- decodeRstepInternal
                RSTEP_SHORT_PULSE_56k_MIN_TICKS RSTEP_SHORT_PULSE_56k_MAX_TICKS
                RSTEP_LONG_PULSE_56k_MIN_TICKS RSTEP_LONG_PULSE_56k_MAX_TICKS ;;
      if slow then return_ true else return_ false).

(** An AVR board: [unsigned int] has 16 bits, [unsigned long] 32. *)
#[export] Instance avr : Platform := {|
  UINT_BITS := 16; ULONG_BITS := 32;
  UINT_BITS_min := Z.le_refl 16; ULONG_BITS_min := Z.le_refl 32 |}.

(** The result structure before any decoder has written to it, with the
    capture [buf]. *)
Definition fresh (buf : list Z) : decode_results :=
  mk_decode_results UNKNOWN 0 0 0 buf.

(** ** Bit streams as lists *)

(** The accumulator that holds the list: element [k] is bit [k]. *)
Fixpoint bits_value (l : list bool) : Z :=
  match l with
  | [] => 0
  | b :: t => Z.b2z b + 2 * bits_value t
  end.

Abbreviation len l := (Z.of_nat (length l)).


(** ** The stages in the words of the specification *)

Inductive pulse : Type := Short | Long | Invalid.

Section Stages.
Variables short_min short_max long_min long_max : Z.

(** Timing Classifier: two inclusive windows. *)
Definition classify (t : Z) : pulse :=
  if (short_min <=? t) && (t <=? short_max) then Short
  else if (long_min <=? t) && (t <=? long_max) then Long
  else Invalid.

(** Mark slots (odd index) are high, space slots (even index) are low. *)
Definition level (i : Z) : bool := Z.odd i.

(** Chip Expansion: one chip for a short duration, two for a long one. *)
Definition slot_chips (i t : Z) : option (list bool) :=
  match classify t with
  | Short => Some [level i]
  | Long => Some [level i; level i]
  | Invalid => None
  end.

(** The chip stream of the slots [i], [i + 1], ... *)
Fixpoint expand (i : Z) (slots : list Z) : option (list bool) :=
  match slots with
  | [] => Some []
  | t :: rest =>
      match slot_chips i t, expand (i + 1) rest with
      | Some c, Some cs => Some (c ++ cs)
      | _, _ => None
      end
  end.

(** The slots in order, with the room left in the 64-bit accumulator. *)
Inductive cut_outcome : Type :=
| Overflow
| Rejected
| Chips (l : list bool).

Fixpoint cut_run (i : Z) (slots : list Z) (l : list bool) : cut_outcome :=
  match slots with
  | [] => Chips l
  | t :: rest =>
      match slot_chips i t with
      | None => Rejected
      | Some c =>
          if len l + len c <=? 64 then cut_run (i + 1) rest (l ++ c)
          else Overflow
      end
  end.
End Stages.

(** Biphase Reconstructor: the pairs of a chip stream, [None] when a pair
    has two equal chips or the stream has an odd length. *)
Fixpoint biphase_pairs (chips : list bool) : option (list (bool * bool)) :=
  match chips with
  | [] => Some []
  | [_] => None
  | a :: b :: rest =>
      if Bool.eqb a b then None
      else option_map (cons (a, b)) (biphase_pairs rest)
  end.

(** Field Extractor: a bit list read most-significant-first. *)
Definition pack_msb_first (l : list bool) : Z :=
  fold_left (fun acc b => 2 * acc + Z.b2z b) l 0.

(** Parts I to III of [decodeRstepInternal]: the recovered data bits. *)
Definition recovered_data_bits (short_min_ticks short_max_ticks long_min_ticks
  long_max_ticks : Z) : M (Z * Z) :=
  chips <- cut_pulses short_min_ticks short_max_ticks long_min_ticks
             long_max_ticks ;;
  dissect_biphase (pad_space chips).

(** Part III pair by pair: [k] pairs from chip [i] on, the data bits so far
    being [d]; [None] when a pair has two equal chips. *)
Fixpoint dissect_run (biphase i : Z) (k : nat) (d : list bool)
  : option (list bool) :=
  match k with
  | O => Some d
  | S k' =>
      if Bool.eqb (Z.testbit biphase i) (Z.testbit biphase (i + 1)) then None
      else dissect_run biphase (i + 2) k' (d ++ [Z.testbit biphase i])
  end.

(** The bits of [l] after the value [v], most significant first. *)
Definition pack_from (v : Z) (l : list bool) : Z :=
  fold_left (fun acc b => 2 * acc + Z.b2z b) l v.

(** One step of either copy loop: shift the field left within its width,
    then set its lowest bit from bit [i] of the data bits. *)
Definition copy_bit (get : decode_results -> Z)
  (set : Z -> decode_results -> decode_results) (width : Z)
  (real_data_bits i : Z) (_ : unit) : M unit :=
  a <- read get ;;
  write (set (Z.shiftl a 1 mod 2 ^ width)) ;;;
  b <- test_bit64 real_data_bits i ;;
  a <- read get ;;
  write (set (Z.lor a b)).

(** The chip count after Part II. *)
Definition padded (num : Z) : Z := if num mod 2 =? 0 then num else num + 1.

(** The result structure after a successful decode of the data bits
    [(real_data_bits, num_real_data_bits)]. *)
Definition decoded {P : Platform} (real_data_bits num_real_data_bits : Z)
  (r : decode_results) : decode_results :=
  {| decode_type := RSTEP;
     address :=
       pack_msb_first (map (Z.testbit real_data_bits) (for_range 1 10 1))
       mod 2 ^ UINT_BITS;
     value :=
       pack_msb_first
         (map (Z.testbit real_data_bits) (for_range 10 num_real_data_bits 1))
       mod 2 ^ ULONG_BITS;
     bits := num_real_data_bits - 10;
     rawbuf := rawbuf r |}.

(** ** The documented frame *)

(** The chips of a pulse train: pulse [k] of the list is slot [i + k]. *)
Fixpoint chips_of_pulses (i : Z) (ps : list pulse) : option (list bool) :=
  match ps with
  | [] => Some []
  | p :: rest =>
      match p, chips_of_pulses (i + 1) rest with
      | Short, Some cs => Some (level i :: cs)
      | Long, Some cs => Some (level i :: level i :: cs)
      | _, _ => None
      end
  end.

(** A data bit on the air, as the frame drawn in the source shows it:
    1 is a mark followed by a space, 0 a space followed by a mark. *)
Definition biphase_chips (frame : list bool) : list bool :=
  flat_map (fun b : bool => if b then [true; false] else [false; true]) frame.

(** The pulses of a chip stream: two equal neighbours are one long pulse. *)
Fixpoint pulses_of_chips (chips : list bool) : list pulse :=
  match chips with
  | [] => []
  | a :: rest =>
      match rest with
      | [] => [Short]
      | b :: rest' =>
          if Bool.eqb a b then Long :: pulses_of_chips rest'
          else Short :: pulses_of_chips rest
      end
  end.

(** STA=1, Cust=1101, Addr=01, Frametype=10, Bat=1, Data=00011110. *)
Definition documented_frame : list bool :=
  [true;
   true; true; false; true;
   false; true;
   true; false;
   true;
   false; false; false; true; true; true; true; false].

Definition documented_pulses : list pulse :=
  pulses_of_chips (biphase_chips documented_frame).

(** One capture of the documented frame at 38 kHz: 6 ticks for a short
    pulse, 13 for a long one, after a gap of 100 ticks. *)
Definition documented_capture : list Z :=
  100 :: map (fun p => match p with Short => 6 | Long => 13 | Invalid => 0 end)
             documented_pulses.

(** The two attempts of [decodeRstep]. *)
Definition fast_attempt {P : Platform} : M bool :=
  decodeRstepInternal
    RSTEP_SHORT_PULSE_38k_MIN_TICKS RSTEP_SHORT_PULSE_38k_MAX_TICKS
    RSTEP_LONG_PULSE_38k_MIN_TICKS RSTEP_LONG_PULSE_38k_MAX_TICKS.

Definition slow_attempt {P : Platform} : M bool :=
  decodeRstepInternal
    RSTEP_SHORT_PULSE_56k_MIN_TICKS RSTEP_SHORT_PULSE_56k_MAX_TICKS
    RSTEP_LONG_PULSE_56k_MIN_TICKS RSTEP_LONG_PULSE_56k_MAX_TICKS.

(** The chips a receiver measures for a frame on the air: those of
    [biphase_chips], except that the space ending a last 1 bit runs into
    the idle line and is not measured. *)
Fixpoint on_air (frame : list bool) : list bool :=
  match frame with
  | [] => []
  | b :: rest =>
      match rest with
      | [] => if b then [true] else [false; true]
      | _ :: _ => (if b then [true; false] else [false; true]) ++ on_air rest
      end
  end.

(** The chips of [p] short pulses from slot [i] on: one chip a slot, high
    and low in turn. *)
Fixpoint alternating (i : Z) (p : nat) : list bool :=
  match p with
  | O => []
  | S p' => level i :: alternating (i + 1) p'
  end.
(** ** Loops *)

Lemma for_range_nil (lo hi stride : Z) :
  0 < stride -> hi <= lo -> for_range lo hi stride = [].
Proof.
  intros Hs Hle. unfold for_range.
  assert (Hq : (hi - lo + stride - 1) / stride < 1)
    by (apply Z.div_lt_upper_bound; lia).
  replace (Z.to_nat ((hi - lo + stride - 1) / stride)) with 0%nat by lia.
  reflexivity.
Qed.

Lemma for_range_cons (lo hi stride : Z) :
  0 < stride -> lo < hi ->
  for_range lo hi stride = lo :: for_range (lo + stride) hi stride.
Proof.
  intros Hs Hlt. unfold for_range.
  replace (hi - lo + stride - 1) with ((hi - (lo + stride) + stride - 1) + 1 * stride) by lia.
  rewrite Z.div_add by lia.
  assert (Hq : 0 <= (hi - (lo + stride) + stride - 1) / stride)
    by (apply Z.div_pos; lia).
  replace (Z.to_nat ((hi - (lo + stride) + stride - 1) / stride + 1))
    with (S (Z.to_nat ((hi - (lo + stride) + stride - 1) / stride))) by lia.
  cbn [seq map]. f_equal; [lia|].
  rewrite <- seq_shift, map_map.
  apply map_ext. intros k. lia.
Qed.

Lemma for_range_In (lo hi stride i : Z) :
  0 < stride ->
  In i (for_range lo hi stride) <->
  exists k, 0 <= k /\ i = lo + stride * k /\ i < hi.
Proof.
  intros Hs. unfold for_range. rewrite in_map_iff. split.
  - intros (k & <- & Hk). apply in_seq in Hk. exists (Z.of_nat k).
    split; [lia|]. split; [reflexivity|].
    assert (Hq : Z.of_nat k < (hi - lo + stride - 1) / stride) by lia.
    assert (Hm := Z.mul_div_le (hi - lo + stride - 1) stride Hs). nia.
  - intros (k & Hk & -> & Hlt). exists (Z.to_nat k). split; [lia|].
    apply in_seq. split; [lia|]. cbn.
    assert (Hq : k + 1 <= (hi - lo + stride - 1) / stride)
      by (apply Z.div_le_lower_bound; nia).
    lia.
Qed.

Lemma for_each_app {S : Type} (body : Z -> S -> M S) (xs ys : list Z) s r :
  for_each (xs ++ ys) body s r =
  (s' <- for_each xs body s ;; for_each ys body s') r.
Proof.
  revert s r. induction xs as [|x xs IH]; intros s r; [reflexivity|].
  cbn [app for_each]. unfold bind in *.
  destruct (body x s r) as [|b r'|s' r']; try reflexivity.
  apply IH.
Qed.

Lemma for_each_slots {S : Type} (body : Z -> Z -> S -> M S) (slots : list Z) :
  forall (pre : list Z) (s : S) (r : decode_results),
    for_each
      (for_range (Z.of_nat (length pre))
                 (Z.of_nat (length pre) + Z.of_nat (length slots)) 1)
      (fun i st => body i (nth (Z.to_nat i) (pre ++ slots) 0) st) s r =
    for_slots body (Z.of_nat (length pre)) slots s r.
Proof.
  induction slots as [|t rest IH]; intros pre s r.
  - rewrite for_range_nil by (cbn; lia). reflexivity.
  - rewrite for_range_cons by (cbn [length]; lia).
    cbn [for_each for_slots]. unfold bind.
    rewrite Nat2Z.id, app_nth2, Nat.sub_diag by lia. cbn [nth].
    destruct (body (Z.of_nat (length pre)) t s r) as [|b r'|s' r'];
      try reflexivity.
    specialize (IH (pre ++ [t]) s' r').
    rewrite <- app_assoc in IH. cbn [app] in IH.
    rewrite length_app in IH. cbn [length] in IH.
    replace (Z.of_nat (length pre + 1)) with (Z.of_nat (length pre) + 1)
      in IH by lia.
    replace (Z.of_nat (length pre) + 1 + Z.of_nat (length rest))
      with (Z.of_nat (length pre) + Z.of_nat (length (t :: rest))) in IH
      by (cbn [length]; lia).
    exact IH.
Qed.

(** ** Bit streams as lists: arithmetic *)

Lemma bits_value_range (l : list bool) : 0 <= bits_value l < 2 ^ len l.
Proof.
  induction l as [|b t IH]; [cbn; lia|].
  cbn [bits_value length]. rewrite Nat2Z.inj_succ, Z.pow_succ_r by lia.
  destruct b; cbn [Z.b2z]; lia.
Qed.

Lemma bits_value_testbit (l : list bool) :
  forall k : nat, Z.testbit (bits_value l) (Z.of_nat k) = nth k l false.
Proof.
  induction l as [|b t IH]; intros k.
  - cbn. rewrite Z.testbit_0_l. destruct k; reflexivity.
  - cbn [bits_value]. rewrite Z.add_comm. destruct k as [|k].
    + cbn [Z.of_nat nth]. apply Z.testbit_0_r.
    + rewrite Nat2Z.inj_succ, Z.testbit_succ_r by lia. cbn [nth]. apply IH.
Qed.

Lemma bits_value_testbit_high (l : list bool) (k : Z) :
  len l <= k -> Z.testbit (bits_value l) k = false.
Proof.
  intros Hk. destruct (bits_value_range l) as [H0 H1].
  destruct (Z.eq_dec (bits_value l) 0) as [->|Hne]; [apply Z.testbit_0_l|].
  apply Z.bits_above_log2; [lia|].
  apply Z.log2_lt_pow2; [lia|].
  eapply Z.lt_le_trans; [exact H1|]. apply Z.pow_le_mono_r; lia.
Qed.

Lemma bits_value_snoc (l : list bool) (b : bool) :
  bits_value (l ++ [b]) = bits_value l + Z.b2z b * 2 ^ len l.
Proof.
  induction l as [|a t IH]; [cbn; destruct b; reflexivity|].
  cbn [app bits_value length]. rewrite IH, Nat2Z.inj_succ, Z.pow_succ_r by lia.
  ring.
Qed.

Lemma lor_disjoint (x y n : Z) :
  0 <= n -> 0 <= x < 2 ^ n -> Z.lor x (y * 2 ^ n) = x + y * 2 ^ n.
Proof.
  intros Hn Hx.
  assert (Hland : Z.land x (y * 2 ^ n) = 0).
  { apply Z.bits_inj'. intros k Hk. rewrite Z.land_spec, Z.bits_0.
    destruct (Z.lt_ge_cases k n) as [Hlt|Hge].
    - rewrite Z.mul_pow2_bits_low by lia. apply andb_false_r.
    - replace (Z.testbit x k) with false; [reflexivity|].
      symmetry. destruct (Z.eq_dec x 0) as [->|Hne]; [apply Z.testbit_0_l|].
      apply Z.bits_above_log2; [lia|].
      apply Z.log2_lt_pow2; [lia|].
      eapply Z.lt_le_trans; [apply Hx|]. apply Z.pow_le_mono_r; lia. }
  rewrite <- Z.lxor_lor by exact Hland.
  symmetry. apply Z.add_nocarry_lxor. exact Hland.
Qed.

Lemma land_pow2 (x i : Z) :
  0 <= i -> (Z.land x (2 ^ i) =? 0) = negb (Z.testbit x i).
Proof.
  intros Hi. destruct (Z.testbit x i) eqn:E; cbn [negb].
  - apply Z.eqb_neq. intros H0.
    assert (Hb : Z.testbit (Z.land x (2 ^ i)) i = true)
      by (rewrite Z.land_spec, E, Z.pow2_bits_true by lia; reflexivity).
    rewrite H0, Z.bits_0 in Hb. discriminate.
  - apply Z.eqb_eq. apply Z.bits_inj'. intros k Hk.
    rewrite Z.land_spec, Z.bits_0, Z.pow2_bits_eqb by lia.
    destruct (Z.eqb_spec i k) as [->|]; [rewrite E; reflexivity|].
    apply andb_false_r.
Qed.

(** ** The 64-bit operations within and beyond their width *)

Lemma shl64_undefined (x n : Z) (r : decode_results) :
  64 <= n -> shl64 x n r = Undefined.
Proof.
  intros Hn. unfold shl64.
  destruct (Z.ltb_spec n 64); [lia|]. rewrite andb_false_r. reflexivity.
Qed.

Lemma shl64_b2z (b : bool) (n : Z) (r : decode_results) :
  0 <= n < 64 -> shl64 (Z.b2z b) n r = Normal (Z.b2z b * 2 ^ n) r.
Proof.
  intros Hn. unfold shl64.
  destruct (Z.leb_spec 0 n); [|lia]. destruct (Z.ltb_spec n 64); [|lia].
  cbn [andb]. unfold ret. f_equal.
  rewrite Z.shiftl_mul_pow2 by lia.
  apply Z.mod_small.
  assert (2 ^ n < 2 ^ 64) by (apply Z.pow_lt_mono_r; lia).
  destruct b; cbn [Z.b2z]; lia.
Qed.

Lemma test_bit64_spec (x i : Z) (r : decode_results) :
  0 <= i < 64 -> test_bit64 x i r = Normal (Z.b2z (Z.testbit x i)) r.
Proof.
  intros Hi. unfold test_bit64, bind.
  change 1 with (Z.b2z true) at 1. rewrite shl64_b2z by exact Hi.
  cbn [Z.b2z]. rewrite Z.mul_1_l, land_pow2 by lia.
  unfold ret. destruct (Z.testbit x i); reflexivity.
Qed.

Lemma test_bit64_undefined (x i : Z) (r : decode_results) :
  64 <= i -> test_bit64 x i r = Undefined.
Proof.
  intros Hi. unfold test_bit64, bind. rewrite shl64_undefined by exact Hi.
  reflexivity.
Qed.

Lemma push_bit_list (b : bool) (l : list bool) (r : decode_results) :
  len l < 64 ->
  push_bit (Z.b2z b) (bits_value l, len l) r =
  Normal (bits_value (l ++ [b]), len (l ++ [b])) r.
Proof.
  intros Hl. unfold push_bit, bind. rewrite shl64_b2z by lia.
  unfold ret. rewrite lor_disjoint by (try apply bits_value_range; lia).
  rewrite bits_value_snoc, length_app. cbn [length].
  do 2 f_equal. lia.
Qed.

Lemma push_bit_undefined (lvl acc num : Z) (r : decode_results) :
  64 <= num -> push_bit lvl (acc, num) r = Undefined.
Proof.
  intros Hn. unfold push_bit, bind. rewrite shl64_undefined by exact Hn.
  reflexivity.
Qed.

Lemma push_bit_step (b : bool) (l : list bool) (r : decode_results) :
  push_bit (Z.b2z b) (bits_value l, len l) r =
  if len l <? 64 then Normal (bits_value (l ++ [b]), len (l ++ [b])) r
  else Undefined.
Proof.
  destruct (Z.ltb_spec (len l) 64).
  - apply push_bit_list; assumption.
  - apply push_bit_undefined; assumption.
Qed.

(** ** Part I on lists *)

Lemma mark_slot (i : Z) : (i mod 2 =? 1) = Z.odd i.
Proof. rewrite Zmod_odd. destruct (Z.odd i); reflexivity. Qed.

Section PartI.
Variables short_min short_max long_min long_max : Z.

Lemma cut_slot_list (i t : Z) (l : list bool) (r : decode_results) :
  cut_slot short_min short_max long_min long_max i t (bits_value l, len l) r =
  match slot_chips short_min short_max long_min long_max i t with
  | None => Returned false r
  | Some c =>
      if len l + len c <=? 64
      then Normal (bits_value (l ++ c), len (l ++ c)) r
      else Undefined
  end.
Proof.
  unfold cut_slot, slot_chips, classify, level. rewrite mark_slot.
  assert (Hpush : forall b,
    (if (short_min <=? t) && (t <=? short_max) then push_bit (Z.b2z b)
           (bits_value l, len l)
     else if (long_min <=? t) && (t <=? long_max)
          then st' <- push_bit (Z.b2z b) (bits_value l, len l) ;;
               push_bit (Z.b2z b) st'
          else return_ false) r =
    match
      match
        (if (short_min <=? t) && (t <=? short_max) then Short
         else if (long_min <=? t) && (t <=? long_max) then Long
              else Invalid)
      with
      | Short => Some [b]
      | Long => Some [b; b]
      | Invalid => None
      end
    with
    | Some c =>
        if len l + len c <=? 64
        then Normal (bits_value (l ++ c), len (l ++ c)) r
        else Undefined
    | None => Returned false r
    end).
  { intros b.
    destruct ((short_min <=? t) && (t <=? short_max)).
    - rewrite push_bit_step. change (len [b]) with 1.
      destruct (Z.ltb_spec (len l) 64), (Z.leb_spec (len l + 1) 64);
        try lia; reflexivity.
    - destruct ((long_min <=? t) && (t <=? long_max)); [|reflexivity].
      unfold bind. rewrite push_bit_step. change (len [b; b]) with 2.
      destruct (Z.ltb_spec (len l) 64).
      + rewrite push_bit_step, <- app_assoc. cbn [app].
        rewrite length_app. cbn [length].
        destruct (Z.ltb_spec (Z.of_nat (length l + 1)) 64),
          (Z.leb_spec (len l + 2) 64); try lia; reflexivity.
      + destruct (Z.leb_spec (len l + 2) 64); try lia; reflexivity. }
  destruct (Z.odd i).
  - apply (Hpush true).
  - apply (Hpush false).
Qed.

Lemma cut_slots_run (slots : list Z) :
  forall (i : Z) (l : list bool) (r : decode_results),
    for_slots (cut_slot short_min short_max long_min long_max) i slots
      (bits_value l, len l) r =
    match cut_run short_min short_max long_min long_max i slots l with
    | Overflow => Undefined
    | Rejected => Returned false r
    | Chips l' => Normal (bits_value l', len l') r
    end.
Proof.
  induction slots as [|t rest IH]; intros i l r; [reflexivity|].
  cbn [for_slots cut_run]. unfold bind. rewrite cut_slot_list.
  destruct (slot_chips short_min short_max long_min long_max i t) as [c|];
    [|reflexivity].
  destruct (len l + len c <=? 64); [|reflexivity].
  apply IH.
Qed.

Lemma cut_pulses_run (r : decode_results) :
  cut_pulses short_min short_max long_min long_max r =
  match cut_run short_min short_max long_min long_max 1 (tl (rawbuf r)) [] with
  | Overflow => Undefined
  | Rejected => Returned false r
  | Chips l' => Normal (bits_value l', len l') r
  end.
Proof.
  unfold cut_pulses, bind, read, rawlen.
  destruct (rawbuf r) as [|gap slots] eqn:Hbuf.
  - rewrite for_range_nil by (cbn; lia). reflexivity.
  - pose proof (for_each_slots
      (cut_slot short_min short_max long_min long_max) slots [gap] (0, 0) r)
      as H.
    cbn [length app] in H. change (Z.of_nat 1) with 1 in H.
    cbn [length tl].
    replace (Z.of_nat (S (length slots))) with (1 + len slots) by lia.
    rewrite H. apply (cut_slots_run slots 1 [] r).
Qed.

(** [cut_run] against [expand]. *)

Lemma cut_run_chips (slots : list Z) :
  forall (i : Z) (l l' : list bool),
    len l <= 64 ->
    cut_run short_min short_max long_min long_max i slots l = Chips l' ->
    exists c, expand short_min short_max long_min long_max i slots = Some c
              /\ l' = l ++ c /\ len l + len c <= 64.
Proof.
  induction slots as [|t rest IH]; intros i l l' Hl H.
  - cbn in H. injection H as <-. exists []. rewrite app_nil_r.
    cbn [expand length]. repeat split; lia.
  - cbn [cut_run expand] in *.
    destruct (slot_chips short_min short_max long_min long_max i t) as [c|];
      [|discriminate].
    destruct (Z.leb_spec (len l + len c) 64) as [Hc|]; [|discriminate].
    apply IH in H as (cs & -> & -> & Hcs); [|rewrite length_app; lia].
    exists (c ++ cs). rewrite app_assoc. rewrite length_app in *.
    repeat split; lia.
Qed.

Lemma cut_run_expand (slots : list Z) :
  forall (i : Z) (l c : list bool),
    expand short_min short_max long_min long_max i slots = Some c ->
    cut_run short_min short_max long_min long_max i slots l =
    if len l + len c <=? 64 then Chips (l ++ c)
    else if len l <=? 64 then Overflow
    else match slots with [] => Chips l | _ => Overflow end.
Proof.
  induction slots as [|t rest IH]; intros i l c H.
  - cbn in H. injection H as <-. rewrite app_nil_r. cbn [cut_run].
    change (len (@nil bool)) with 0. rewrite Z.add_0_r.
    destruct (Z.leb_spec (len l) 64); reflexivity.
  - cbn [cut_run expand] in *.
    destruct (slot_chips short_min short_max long_min long_max i t)
      as [c1|] eqn:Hc1; [|discriminate].
    destruct (expand short_min short_max long_min long_max (i + 1) rest)
      as [cs|] eqn:Hcs; [|discriminate].
    injection H as <-.
    assert (Hpos : 1 <= len c1).
    { unfold slot_chips in Hc1.
      destruct (classify short_min short_max long_min long_max t);
        inversion Hc1; cbn; lia. }
    rewrite (IH (i + 1) (l ++ c1) cs Hcs), app_assoc.
    rewrite !length_app.
    destruct (Z.leb_spec (len l + len c1) 64),
      (Z.leb_spec (Z.of_nat (length l + length c1) + len cs) 64),
      (Z.leb_spec (len l + Z.of_nat (length c1 + length cs)) 64),
      (Z.leb_spec (Z.of_nat (length l + length c1)) 64),
      (Z.leb_spec (len l) 64); try lia; try reflexivity.
Qed.

Lemma cut_run_rejected (slots : list Z) :
  forall (i : Z) (l : list bool),
    cut_run short_min short_max long_min long_max i slots l = Rejected ->
    expand short_min short_max long_min long_max i slots = None.
Proof.
  induction slots as [|t rest IH]; intros i l H; [discriminate|].
  cbn [cut_run expand] in *.
  destruct (slot_chips short_min short_max long_min long_max i t) as [c|];
    [|reflexivity].
  destruct (len l + len c <=? 64); [|discriminate].
  rewrite (IH _ _ H). reflexivity.
Qed.

Lemma cut_run_invalid (pre post : list Z) (t : Z) :
  forall (i : Z) (l c : list bool),
    expand short_min short_max long_min long_max i pre = Some c ->
    len l + len c <= 64 ->
    classify short_min short_max long_min long_max t = Invalid ->
    cut_run short_min short_max long_min long_max i (pre ++ t :: post) l =
    Rejected.
Proof.
  induction pre as [|p pre IH]; intros i l c H Hl Ht.
  - cbn [app cut_run]. unfold slot_chips. rewrite Ht. reflexivity.
  - cbn [app cut_run expand] in *.
    destruct (slot_chips short_min short_max long_min long_max i p)
      as [c1|]; [|discriminate].
    destruct (expand short_min short_max long_min long_max (i + 1) pre)
      as [cs|] eqn:Hcs; [|discriminate].
    injection H as <-. rewrite length_app in Hl.
    destruct (Z.leb_spec (len l + len c1) 64); [|lia].
    apply (IH (i + 1) (l ++ c1) cs Hcs); [rewrite length_app; lia|exact Ht].
Qed.
End PartI.

(** ** Part III *)

Lemma dissect_pair_list (B i : Z) (d : list bool) (r : decode_results) :
  0 <= i -> i + 1 < 64 -> len d < 64 ->
  dissect_pair B i (bits_value d, len d) r =
  if Bool.eqb (Z.testbit B i) (Z.testbit B (i + 1)) then Returned false r
  else Normal (bits_value (d ++ [Z.testbit B i]),
               len (d ++ [Z.testbit B i])) r.
Proof.
  intros Hi Hi1 Hd. unfold dissect_pair, bind.
  rewrite Z.add_0_r, !test_bit64_spec by lia.
  destruct (Z.testbit B i), (Z.testbit B (i + 1)); cbn [Z.b2z Z.eqb Bool.eqb negb];
    try reflexivity.
  - apply (push_bit_list true); exact Hd.
  - apply (push_bit_list false); exact Hd.
Qed.

Lemma dissect_loop (B n : Z) :
  n <= 64 ->
  forall (k : nat) (d : list bool) (r : decode_results),
    n = 2 * len d + 2 * Z.of_nat k ->
    for_each (for_range (2 * len d) n 2) (dissect_pair B)
      (bits_value d, len d) r =
    match dissect_run B (2 * len d) k d with
    | None => Returned false r
    | Some d' => Normal (bits_value d', len d') r
    end.
Proof.
  intros Hn. induction k as [|k IH]; intros d r Hk.
  - rewrite for_range_nil by lia. reflexivity.
  - rewrite for_range_cons by lia. cbn [for_each dissect_run]. unfold bind.
    rewrite dissect_pair_list by lia.
    destruct (Bool.eqb (Z.testbit B (2 * len d)) (Z.testbit B (2 * len d + 1)));
      [reflexivity|].
    specialize (IH (d ++ [Z.testbit B (2 * len d)]) r).
    rewrite length_app in IH. cbn [length] in IH.
    replace (2 * Z.of_nat (length d + 1)) with (2 * len d + 2) in IH by lia.
    rewrite length_app. cbn [length].
    apply IH. lia.
Qed.

Lemma dissect_biphase_run (B n : Z) (r : decode_results) :
  0 <= n <= 64 -> n mod 2 = 0 ->
  dissect_biphase (B, n) r =
  match dissect_run B 0 (Z.to_nat (n / 2)) [] with
  | None => Returned false r
  | Some d => Normal (bits_value d, len d) r
  end.
Proof.
  intros Hn Heven. unfold dissect_biphase.
  assert (Hdiv : n = 2 * (n / 2)) by (rewrite (Z.div_mod n 2) at 1; lia).
  apply (dissect_loop B n (proj2 Hn) (Z.to_nat (n / 2)) [] r).
  cbn [length]. lia.
Qed.

Lemma dissect_run_some (B : Z) (k : nat) :
  forall (i : Z) (d d' : list bool),
    dissect_run B i k d = Some d' ->
    exists dl, d' = d ++ dl /\ length dl = k /\
      forall j : nat, (j < k)%nat ->
        nth j dl false = Z.testbit B (i + 2 * Z.of_nat j) /\
        Z.testbit B (i + 2 * Z.of_nat j + 1) =
          negb (Z.testbit B (i + 2 * Z.of_nat j)).
Proof.
  induction k as [|k IH]; intros i d d' H.
  - cbn in H. injection H as <-. exists []. rewrite app_nil_r.
    repeat split; lia.
  - cbn [dissect_run] in H.
    destruct (Bool.eqb (Z.testbit B i) (Z.testbit B (i + 1))) eqn:E;
      [discriminate|].
    apply IH in H as (dl & -> & Hlen & Hbits).
    exists (Z.testbit B i :: dl). rewrite <- app_assoc. cbn [app length].
    split; [reflexivity|]. split; [lia|].
    intros [|j] Hj.
    + cbn [nth Z.of_nat]. rewrite Z.mul_0_r, Z.add_0_r. split; [reflexivity|].
      destruct (Z.testbit B i), (Z.testbit B (i + 1)); cbn in *; congruence.
    + cbn [nth]. specialize (Hbits j ltac:(lia)).
      replace (i + 2 * Z.of_nat (S j)) with (i + 2 + 2 * Z.of_nat j) by lia.
      exact Hbits.
Qed.

Lemma dissect_run_none (B : Z) (k : nat) :
  forall (i : Z) (d : list bool),
    dissect_run B i k d = None <->
    exists j : nat, (j < k)%nat /\
      Z.testbit B (i + 2 * Z.of_nat j) = Z.testbit B (i + 2 * Z.of_nat j + 1).
Proof.
  induction k as [|k IH]; intros i d.
  - cbn. split; [discriminate|]. intros (j & Hj & _). lia.
  - cbn [dissect_run].
    destruct (Bool.eqb (Z.testbit B i) (Z.testbit B (i + 1))) eqn:E.
    + split; [|reflexivity]. intros _. exists 0%nat. split; [lia|].
      cbn [Z.of_nat]. rewrite Z.mul_0_r, Z.add_0_r. apply eqb_prop. exact E.
    + rewrite IH. split.
      * intros (j & Hj & Heq). exists (S j). split; [lia|].
        replace (i + 2 * Z.of_nat (S j)) with (i + 2 + 2 * Z.of_nat j) by lia.
        exact Heq.
      * intros ([|j] & Hj & Heq).
        -- cbn [Z.of_nat] in Heq. rewrite Z.mul_0_r, Z.add_0_r in Heq.
           rewrite Heq, eqb_reflx in E. discriminate.
        -- exists j. split; [lia|].
           replace (i + 2 * Z.of_nat (S j)) with (i + 2 + 2 * Z.of_nat j)
             in Heq by lia.
           exact Heq.
Qed.

(** ** Packing most-significant-first *)

Lemma pack_from_linear (l : list bool) :
  forall v, pack_from v l = v * 2 ^ len l + pack_from 0 l.
Proof.
  unfold pack_from. induction l as [|b l IH]; intros v.
  - cbn. lia.
  - cbn [fold_left length]. rewrite IH, (IH (2 * 0 + Z.b2z b)).
    rewrite Nat2Z.inj_succ, Z.pow_succ_r by lia. ring.
Qed.

Lemma pack_from_range (l : list bool) : 0 <= pack_from 0 l < 2 ^ len l.
Proof.
  induction l as [|b l IH] using rev_ind; [cbn; lia|].
  unfold pack_from in *. rewrite fold_left_app, length_app. cbn [fold_left length].
  replace (Z.of_nat (length l + 1)) with (Z.succ (len l)) by lia.
  rewrite Z.pow_succ_r by lia. destruct b; cbn [Z.b2z]; lia.
Qed.

Lemma pack_from_snoc (v : Z) (l : list bool) (b : bool) :
  pack_from v (l ++ [b]) = 2 * pack_from v l + Z.b2z b.
Proof. unfold pack_from. rewrite fold_left_app. reflexivity. Qed.

Lemma pack_from_mod (l : list bool) (v m : Z) :
  m <> 0 -> pack_from (v mod m) l mod m = pack_from v l mod m.
Proof.
  intros Hm. rewrite (pack_from_linear l (v mod m)), (pack_from_linear l v).
  rewrite Z.add_mod, Z.mul_mod_idemp_l, <- Z.add_mod by exact Hm.
  reflexivity.
Qed.

Lemma pack_msb_first_testbit (l : list bool) :
  forall k : nat, (k < length l)%nat ->
    Z.testbit (pack_msb_first l) (Z.of_nat k) = nth (length l - 1 - k) l false.
Proof.
  unfold pack_msb_first. fold (pack_from 0 l).
  induction l as [|b l IH] using rev_ind; intros k Hk; [cbn in Hk; lia|].
  rewrite pack_from_snoc, length_app in *. cbn [length] in *.
  destruct k as [|k].
  - rewrite Z.testbit_0_r.
    replace (length l + 1 - 1 - 0)%nat with (length l) by lia.
    rewrite app_nth2, Nat.sub_diag by lia. reflexivity.
  - rewrite Nat2Z.inj_succ, Z.testbit_succ_r by lia.
    rewrite IH by lia. rewrite app_nth1 by lia. f_equal. lia.
Qed.

Lemma lor_low_bit (v W : Z) (b : bool) :
  0 < W ->
  Z.lor (Z.shiftl v 1 mod 2 ^ W) (Z.b2z b) = (2 * v + Z.b2z b) mod 2 ^ W.
Proof.
  intros HW. rewrite Z.shiftl_mul_pow2 by lia. change (2 ^ 1) with 2.
  replace W with (Z.succ (W - 1)) by lia. rewrite Z.pow_succ_r by lia.
  assert (Hm : 0 < 2 ^ (W - 1)) by (apply Z.pow_pos_nonneg; lia).
  rewrite (Z.mul_comm v 2), Z.mul_mod_distr_l by lia.
  assert (Hr := Z.mod_pos_bound v (2 ^ (W - 1)) Hm).
  rewrite Z.lor_comm.
  replace (2 * (v mod 2 ^ (W - 1))) with ((v mod 2 ^ (W - 1)) * 2 ^ 1) by lia.
  rewrite lor_disjoint by (destruct b; cbn; lia).
  apply Zmod_unique with (q := v / 2 ^ (W - 1)).
  - destruct b; cbn [Z.b2z]; lia.
  - rewrite (Z.div_mod v (2 ^ (W - 1))) at 1 by lia. change (2 ^ 1) with 2. ring.
Qed.

(** ** The copy loops *)

Section CopyLoop.
Variable get : decode_results -> Z.
Variable set : Z -> decode_results -> decode_results.
Variable W : Z.
Hypothesis get_set : forall x r, get (set x r) = x.
Hypothesis set_set : forall x y r, set x (set y r) = set x r.
Hypothesis W_pos : 0 < W.

Lemma copy_bit_spec (D i : Z) (r : decode_results) :
  0 <= i < 64 ->
  copy_bit get set W D i tt r =
  Normal tt (set ((2 * get r + Z.b2z (Z.testbit D i)) mod 2 ^ W) r).
Proof.
  intros Hi. unfold copy_bit, bind, read, write.
  rewrite test_bit64_spec by exact Hi.
  rewrite get_set, set_set, lor_low_bit by exact W_pos. reflexivity.
Qed.

Lemma copy_loop (D : Z) (idx : list Z) :
  Forall (fun i => 0 <= i < 64) idx ->
  forall (v : Z) (r : decode_results),
    0 <= v < 2 ^ W ->
    for_each idx (copy_bit get set W D) tt (set v r) =
    Normal tt (set (pack_from v (map (Z.testbit D) idx) mod 2 ^ W) r).
Proof.
  induction 1 as [|i idx Hi _ IH]; intros v r Hv.
  - cbn. unfold ret. rewrite Z.mod_small by exact Hv. reflexivity.
  - cbn [for_each map]. unfold bind. rewrite copy_bit_spec by exact Hi.
    rewrite get_set, set_set.
    assert (Hm : 0 < 2 ^ W) by (apply Z.pow_pos_nonneg; lia).
    rewrite IH by (apply Z.mod_pos_bound; exact Hm).
    rewrite pack_from_mod by lia. reflexivity.
Qed.
End CopyLoop.

Lemma for_range_bounds (lo hi : Z) :
  0 <= lo -> hi <= 64 -> Forall (fun i => 0 <= i < 64) (for_range lo hi 1).
Proof.
  intros Hlo Hhi. apply Forall_forall. intros i Hi.
  apply for_range_In in Hi as (k & Hk & -> & Hlt); lia.
Qed.

Lemma for_range_length (lo hi : Z) :
  lo <= hi -> len (for_range lo hi 1) = hi - lo.
Proof.
  intros H. unfold for_range. rewrite length_map, length_seq.
  replace (hi - lo + 1 - 1) with (hi - lo) by lia. rewrite Z.div_1_r. lia.
Qed.

(** ** The whole of decodeRstepInternal *)

Lemma pad_space_padded (B n : Z) : pad_space (B, n) = (B, padded n).
Proof. unfold pad_space, padded. destruct (n mod 2 =? 0); reflexivity. Qed.

Lemma padded_even (n : Z) : padded n mod 2 = 0.
Proof.
  unfold padded. destruct (Z.eqb_spec (n mod 2) 0) as [H|H]; [exact H|].
  assert (Hb := Z.mod_pos_bound n 2 ltac:(lia)).
  rewrite <- Z.add_mod_idemp_l by lia.
  replace (n mod 2) with 1 by lia. reflexivity.
Qed.

Lemma padded_bounds (n : Z) : 0 <= n <= 64 -> 0 <= padded n <= 64.
Proof.
  intros Hn. unfold padded.
  destruct (Z.eqb_spec (n mod 2) 0) as [H|H]; [lia|].
  assert (n <> 64) by (intros ->; apply H; reflexivity). lia.
Qed.

Section Whole.
Context {P : Platform}.

Lemma copy_result_spec (D n : Z) (r : decode_results) :
  10 <= n <= 64 ->
  copy_result (D, n) r = Normal tt (decoded D n r).
Proof.
  intros Hn. unfold copy_result, bind, write.
  change (copy_value_bit D) with (copy_bit value set_value ULONG_BITS D).
  change (copy_address_bit D) with (copy_bit address set_address UINT_BITS D).
  pose proof UINT_BITS_min as HU. pose proof ULONG_BITS_min as HL.
  rewrite (copy_loop value set_value ULONG_BITS)
    by first [reflexivity | lia | apply for_range_bounds; lia
             | split; [lia|apply Z.pow_pos_nonneg; lia]].
  rewrite (copy_loop address set_address UINT_BITS)
    by first [reflexivity | lia | apply for_range_bounds; lia
             | split; [lia|apply Z.pow_pos_nonneg; lia]].
  reflexivity.
Qed.

Section Ticks.
Variables short_min short_max long_min long_max : Z.

Lemma recovered_run (r : decode_results) :
  recovered_data_bits short_min short_max long_min long_max r =
  match cut_run short_min short_max long_min long_max 1 (tl (rawbuf r)) []
  with
  | Overflow => Undefined
  | Rejected => Returned false r
  | Chips l =>
      match dissect_run (bits_value l) 0 (Z.to_nat (padded (len l) / 2)) []
      with
      | None => Returned false r
      | Some d => Normal (bits_value d, len d) r
      end
  end.
Proof.
  unfold recovered_data_bits, bind. rewrite cut_pulses_run.
  destruct (cut_run short_min short_max long_min long_max 1 (tl (rawbuf r)) [])
    as [| |l] eqn:Hrun; try reflexivity.
  apply cut_run_chips in Hrun as (c & _ & -> & Hc); [|cbn; lia].
  rewrite pad_space_padded. cbn [app length] in *.
  apply dissect_biphase_run; [apply padded_bounds; lia|apply padded_even].
Qed.

Lemma body_recovered (r : decode_results) :
  decodeRstepInternal_body short_min short_max long_min long_max r =
  (data <- recovered_data_bits short_min short_max long_min long_max ;;
   (if snd data <? 10 then return_ false else ret tt) ;;;
   copy_result data ;;;
   return_ true) r.
Proof.
  unfold decodeRstepInternal_body, recovered_data_bits, bind.
  destruct (cut_pulses short_min short_max long_min long_max r);
    reflexivity.
Qed.

Lemma decodeRstepInternal_run (r : decode_results) :
  decodeRstepInternal short_min short_max long_min long_max r =
  match cut_run short_min short_max long_min long_max 1 (tl (rawbuf r)) []
  with
  | Overflow => Undefined
  | Rejected => Normal false r
  | Chips l =>
      match dissect_run (bits_value l) 0 (Z.to_nat (padded (len l) / 2)) []
      with
      | None => Normal false r
      | Some d =>
          if len d <? 10 then Normal false r
          else Normal true (decoded (bits_value d) (len d) r)
      end
  end.
Proof.
  unfold decodeRstepInternal, call. rewrite body_recovered.
  unfold bind at 1. rewrite recovered_run.
  destruct (cut_run short_min short_max long_min long_max 1 (tl (rawbuf r)) [])
    as [| |l] eqn:Hrun; try reflexivity.
  apply cut_run_chips in Hrun as (c & _ & -> & Hc); [|cbn; lia].
  cbn [app length] in *.
  destruct (dissect_run (bits_value c) 0 (Z.to_nat (padded (len c) / 2)) [])
    as [d|] eqn:Hd; [|reflexivity].
  apply dissect_run_some in Hd as (dl & -> & Hlen & _). cbn [app].
  unfold bind. cbn [snd].
  destruct (Z.ltb_spec (len dl) 10); [reflexivity|].
  unfold ret. cbv beta iota. rewrite copy_result_spec; [reflexivity|].
  assert (Hp := padded_bounds (len c) ltac:(lia)).
  assert (padded (len c) / 2 <= 32)
    by (apply Z.div_le_upper_bound; lia).
  lia.
Qed.
End Ticks.
End Whole.

(** ** Results that do not wrap *)

Section Small.
Context {P : Platform}.

Lemma pack_small (l : list bool) (W : Z) :
  len l <= W -> pack_msb_first l mod 2 ^ W = pack_msb_first l.
Proof.
  intros Hl. apply Z.mod_small.
  unfold pack_msb_first. fold (pack_from 0 l).
  destruct (pack_from_range l) as [H0 H1]. split; [exact H0|].
  eapply Z.lt_le_trans; [exact H1|]. apply Z.pow_le_mono_r; lia.
Qed.

Lemma decoded_address (D n : Z) (r : decode_results) :
  address (decoded D n r) =
  pack_msb_first (map (Z.testbit D) [1; 2; 3; 4; 5; 6; 7; 8; 9]).
Proof.
  cbn [decoded address]. change (for_range 1 10 1) with [1; 2; 3; 4; 5; 6; 7; 8; 9].
  apply pack_small. pose proof UINT_BITS_min. cbn [map length]. lia.
Qed.

Lemma decoded_value (D n : Z) (r : decode_results) :
  10 <= n <= 42 ->
  value (decoded D n r) =
  pack_msb_first (map (Z.testbit D) (for_range 10 n 1)).
Proof.
  intros Hn. cbn [decoded value]. apply pack_small.
  rewrite length_map, for_range_length by lia.
  pose proof ULONG_BITS_min. lia.
Qed.
End Small.

Lemma expand_pulses (short_min short_max long_min long_max : Z)
  (slots : list Z) :
  forall i,
    expand short_min short_max long_min long_max i slots =
    chips_of_pulses i (map (classify short_min short_max long_min long_max) slots).
Proof.
  induction slots as [|t rest IH]; intros i; [reflexivity|].
  cbn [expand map chips_of_pulses]. rewrite IH. unfold slot_chips.
  destruct (classify short_min short_max long_min long_max t);
    destruct (chips_of_pulses (i + 1)
                (map (classify short_min short_max long_min long_max) rest));
    reflexivity.
Qed.

Lemma expand_invalid (short_min short_max long_min long_max : Z)
  (slots : list Z) (t : Z) :
  In t slots ->
  classify short_min short_max long_min long_max t = Invalid ->
  forall i, expand short_min short_max long_min long_max i slots = None.
Proof.
  intros Hin Ht. induction slots as [|a rest IH]; intros i; [contradiction|].
  cbn [expand]. destruct Hin as [->|Hin].
  - unfold slot_chips. rewrite Ht. reflexivity.
  - rewrite (IH Hin).
    destruct (slot_chips short_min short_max long_min long_max i a);
      reflexivity.
Qed.

(** ** The two tick tables against each other *)

Lemma tables_disjoint :
  RSTEP_SHORT_PULSE_38k_MAX_TICKS < RSTEP_LONG_PULSE_38k_MIN_TICKS /\
  RSTEP_SHORT_PULSE_56k_MAX_TICKS < RSTEP_LONG_PULSE_56k_MIN_TICKS.
Proof. split; reflexivity. Qed.

Lemma fast_overflow_slow (slots : list Z) :
  forall (i : Z) (lf ls : list bool),
    len lf <= len ls ->
    cut_run 4 10 11 16 i slots lf = Overflow ->
    forall l', cut_run 2 6 7 11 i slots ls <> Chips l'.
Proof.
  induction slots as [|t rest IH]; intros i lf ls Hle Hf l'; [discriminate|].
  cbn [cut_run] in *. unfold slot_chips, classify in *.
  repeat match goal with
         | H : context [Z.leb ?a ?b] |- _ => destruct (Z.leb_spec a b)
         | |- context [Z.leb ?a ?b] => destruct (Z.leb_spec a b)
         end;
    cbn [andb length] in *; try discriminate; try lia;
    repeat match goal with
           | H : context [Z.leb ?a ?b] |- _ => destruct (Z.leb_spec a b)
           | |- context [Z.leb ?a ?b] => destruct (Z.leb_spec a b)
           end;
    try discriminate; try lia;
    (eapply IH; [|eassumption]; rewrite !length_app; cbn [length]; lia).
Qed.

(** ** What an attempt can return *)

Lemma call_not_returned (body : M bool) (r : decode_results) (b : bool)
  (r' : decode_results) : call body r <> Returned b r'.
Proof. unfold call. destruct (body r); discriminate. Qed.

Lemma attempt_failure_untouched {P : Platform}
  (short_min short_max long_min long_max : Z) (r r' : decode_results) :
  decodeRstepInternal short_min short_max long_min long_max r = Normal false r' ->
  r' = r.
Proof.
  rewrite decodeRstepInternal_run.
  destruct (cut_run short_min short_max long_min long_max 1 (tl (rawbuf r)) [])
    as [| |l]; try discriminate.
  - intros H. injection H as <-. reflexivity.
  - destruct (dissect_run (bits_value l) 0 (Z.to_nat (padded (len l) / 2)) [])
      as [d|].
    + destruct (len d <? 10); [|discriminate].
      intros H. injection H as <-. reflexivity.
    + intros H. injection H as <-. reflexivity.
Qed.

Lemma decodeRstep_attempts {P : Platform} (r : decode_results) :
  decodeRstep r =
  match fast_attempt r with
  | Undefined => Undefined
  | Returned b r' => Normal b r'
  | Normal true r' => Normal true r'
  | Normal false r' =>
      match slow_attempt r' with
      | Undefined => Undefined
      | Returned b r'' => Normal b r''
      | Normal b r'' => Normal b r''
      end
  end.
Proof.
  unfold decodeRstep, fast_attempt, slow_attempt, call at 1, bind.
  destruct (decodeRstepInternal _ _ _ _ r) as [|b r'|[|] r']; try reflexivity.
  destruct (decodeRstepInternal _ _ _ _ r') as [|b r''|[|] r'']; reflexivity.
Qed.

Lemma fast_undefined_slow {P : Platform} (r r' : decode_results) :
  fast_attempt r = Undefined -> slow_attempt r <> Normal true r'.
Proof.
  unfold fast_attempt, slow_attempt. rewrite !decodeRstepInternal_run.
  cbv [RSTEP_SHORT_PULSE_38k_MIN_TICKS RSTEP_SHORT_PULSE_38k_MAX_TICKS
       RSTEP_LONG_PULSE_38k_MIN_TICKS RSTEP_LONG_PULSE_38k_MAX_TICKS
       RSTEP_SHORT_PULSE_56k_MIN_TICKS RSTEP_SHORT_PULSE_56k_MAX_TICKS
       RSTEP_LONG_PULSE_56k_MIN_TICKS RSTEP_LONG_PULSE_56k_MAX_TICKS].
  destruct (cut_run 4 10 11 16 1 (tl (rawbuf r)) []) as [| |lf] eqn:Hf.
  - intros _.
    destruct (cut_run 2 6 7 11 1 (tl (rawbuf r)) []) as [| |ls] eqn:Hs;
      try discriminate.
    exfalso. exact (fast_overflow_slow _ 1 [] [] ltac:(lia) Hf ls Hs).
  - discriminate.
  - destruct (dissect_run (bits_value lf) 0 (Z.to_nat (padded (len lf) / 2)) [])
      as [d|]; [destruct (len d <? 10)|]; discriminate.
Qed.

(** ** The stages of an attempt that went through *)

Lemma cut_pulses_normal (short_min short_max long_min long_max : Z)
  (r r' : decode_results) (B n : Z) :
  cut_pulses short_min short_max long_min long_max r = Normal (B, n) r' ->
  r' = r /\
  exists l, expand short_min short_max long_min long_max 1 (tl (rawbuf r)) = Some l
            /\ cut_run short_min short_max long_min long_max 1 (tl (rawbuf r)) []
               = Chips l
            /\ B = bits_value l /\ n = len l /\ n <= 64.
Proof.
  rewrite cut_pulses_run.
  destruct (cut_run short_min short_max long_min long_max 1 (tl (rawbuf r)) [])
    as [| |l] eqn:Hrun; try discriminate.
  intros H. injection H as <- <- <-. split; [reflexivity|].
  exists l. pose proof Hrun as Hrun'.
  apply cut_run_chips in Hrun as (c & Hc & -> & Hlen); [|cbn; lia].
  cbn [app length] in *. repeat split; try assumption; lia.
Qed.

Lemma dissect_biphase_normal (B n D nd : Z) (r r' : decode_results) :
  0 <= n <= 64 -> n mod 2 = 0 ->
  dissect_biphase (B, n) r = Normal (D, nd) r' ->
  r' = r /\
  exists dl, dissect_run B 0 (Z.to_nat (n / 2)) [] = Some dl
             /\ D = bits_value dl /\ nd = len dl /\ 2 * nd = n /\
             forall j : nat, (j < length dl)%nat ->
               nth j dl false = Z.testbit B (2 * Z.of_nat j) /\
               Z.testbit B (2 * Z.of_nat j + 1)
               = negb (Z.testbit B (2 * Z.of_nat j)).
Proof.
  intros Hn Heven. rewrite dissect_biphase_run by assumption.
  destruct (dissect_run B 0 (Z.to_nat (n / 2)) []) as [d|] eqn:Hd;
    [|discriminate].
  intros H. injection H as <- <- <-. split; [reflexivity|].
  exists d. pose proof Hd as Hd'.
  apply dissect_run_some in Hd as (dl & -> & Hlen & Hbits). cbn [app] in *.
  assert (Hdiv : n = 2 * (n / 2)) by (rewrite (Z.div_mod n 2) at 1; lia).
  repeat split; try reflexivity; try assumption; try lia.
  - rewrite <- Hlen in Hbits. apply (Hbits j H).
  - rewrite <- Hlen in Hbits. apply (Hbits j H).
Qed.

Lemma attempt_of_recovered {P : Platform}
  (short_min short_max long_min long_max : Z) (r : decode_results) :
  decodeRstepInternal short_min short_max long_min long_max r =
  match recovered_data_bits short_min short_max long_min long_max r with
  | Undefined => Undefined
  | Returned b r' => Normal b r'
  | Normal (D, n) r' =>
      if n <? 10 then Normal false r' else Normal true (decoded D n r')
  end.
Proof.
  rewrite decodeRstepInternal_run, recovered_run.
  destruct (cut_run short_min short_max long_min long_max 1 (tl (rawbuf r)) [])
    as [| |l]; try reflexivity.
  destruct (dissect_run (bits_value l) 0 (Z.to_nat (padded (len l) / 2)) []);
    reflexivity.
Qed.

Lemma recovered_normal (short_min short_max long_min long_max : Z)
  (r r' : decode_results) (D n : Z) :
  recovered_data_bits short_min short_max long_min long_max r
  = Normal (D, n) r' ->
  r' = r /\ 0 <= n <= 32 /\ 0 <= D < 2 ^ n.
Proof.
  rewrite recovered_run.
  destruct (cut_run short_min short_max long_min long_max 1 (tl (rawbuf r)) [])
    as [| |l] eqn:Hrun; try discriminate.
  apply cut_run_chips in Hrun as (c & _ & -> & Hc); [|cbn; lia].
  cbn [app length] in *.
  destruct (dissect_run (bits_value c) 0 (Z.to_nat (padded (len c) / 2)) [])
    as [d|] eqn:Hd; [|discriminate].
  intros H. injection H as <- <- <-.
  apply dissect_run_some in Hd as (dl & -> & Hlen & _). cbn [app].
  assert (Hp := padded_bounds (len c) ltac:(lia)).
  assert (padded (len c) / 2 <= 32) by (apply Z.div_le_upper_bound; lia).
  split; [reflexivity|]. split; [lia|]. apply bits_value_range.
Qed.

Lemma nth_map_any {A B : Type} (f : A -> B) (l : list A) (d : A) (d' : B) :
  forall j : nat, (j < length l)%nat -> nth j (map f l) d' = f (nth j l d).
Proof.
  induction l as [|a l IH]; intros [|j] Hj; cbn in *; try lia; try reflexivity.
  apply IH. lia.
Qed.

Lemma for_range_nth (lo hi : Z) (j : nat) :
  Z.of_nat j < hi - lo -> nth j (for_range lo hi 1) 0 = lo + Z.of_nat j.
Proof.
  intros Hj. unfold for_range.
  replace (hi - lo + 1 - 1) with (hi - lo) by lia. rewrite Z.div_1_r.
  rewrite (nth_map_any _ _ 0%nat) by (rewrite length_seq; lia).
  rewrite seq_nth by lia. lia.
Qed.

Lemma pack_range_testbit (D lo hi k : Z) :
  0 <= k < hi - lo ->
  Z.testbit (pack_msb_first (map (Z.testbit D) (for_range lo hi 1)))
            (hi - lo - 1 - k)
  = Z.testbit D (lo + k).
Proof.
  intros Hk.
  assert (Hlen : length (map (Z.testbit D) (for_range lo hi 1))
                 = Z.to_nat (hi - lo)).
  { rewrite length_map. pose proof (for_range_length lo hi ltac:(lia)). lia. }
  replace (hi - lo - 1 - k) with (Z.of_nat (Z.to_nat (hi - lo - 1 - k))) by lia.
  rewrite pack_msb_first_testbit by lia.
  rewrite Hlen.
  replace (Z.to_nat (hi - lo) - 1 - Z.to_nat (hi - lo - 1 - k))%nat
    with (Z.to_nat k) by lia.
  rewrite (nth_map_any _ _ 0) by (rewrite length_map in Hlen; lia).
  rewrite for_range_nth by lia. f_equal. lia.
Qed.

(** * The claims *)

Lemma decoded_fields {P : Platform} (D n : Z) (r : decode_results) :
  10 <= n <= 42 ->
  decoded D n r =
  {| decode_type := RSTEP;
     address := pack_msb_first (map (Z.testbit D) [1; 2; 3; 4; 5; 6; 7; 8; 9]);
     value := pack_msb_first (map (Z.testbit D) (for_range 10 n 1));
     bits := n - 10;
     rawbuf := rawbuf r |}.
Proof.
  intros Hn. rewrite <- (decoded_address D n r), <- (decoded_value D n r Hn).
  reflexivity.
Qed.

(** The documented pulses are the documented frame, bit by bit. *)
Lemma documented_pulses_chips :
  chips_of_pulses 1 documented_pulses = Some (biphase_chips documented_frame).
Proof. reflexivity. Qed.

Lemma decodeRstepInternal_documented {P : Platform} (r : decode_results)
  (gap : Z) (slots : list Z) :
  rawbuf r = gap :: slots ->
  map (classify RSTEP_SHORT_PULSE_38k_MIN_TICKS RSTEP_SHORT_PULSE_38k_MAX_TICKS
         RSTEP_LONG_PULSE_38k_MIN_TICKS RSTEP_LONG_PULSE_38k_MAX_TICKS) slots
  = documented_pulses ->
  decodeRstepInternal
    RSTEP_SHORT_PULSE_38k_MIN_TICKS RSTEP_SHORT_PULSE_38k_MAX_TICKS
    RSTEP_LONG_PULSE_38k_MIN_TICKS RSTEP_LONG_PULSE_38k_MAX_TICKS r =
  Normal true
    {| decode_type := RSTEP; address := 429; value := 30; bits := 8;
       rawbuf := rawbuf r |}.
Proof.
  intros Hbuf Hmap. rewrite decodeRstepInternal_run, Hbuf. cbn [tl].
  rewrite (cut_run_expand _ _ _ _ slots 1 [] (biphase_chips documented_frame))
    by (rewrite expand_pulses, Hmap; reflexivity).
  cbn [app].
  set (chips := biphase_chips documented_frame).
  replace (len [] + len chips <=? 64) with true by reflexivity.
  replace (dissect_run (bits_value chips) 0 (Z.to_nat (padded (len chips) / 2)) [])
    with (Some documented_frame) by (vm_compute; reflexivity).
  replace (len documented_frame <? 10) with false by reflexivity.
  rewrite decoded_fields by (cbn; lia). rewrite <- Hbuf. reflexivity.
Qed.

(** C1 as stated does not hold.  A capture of one short mark and one short
    space gives the chip stream high, low (bit 0 set, bit 1 clear): one
    aligned pair whose chips differ, a high-to-low transition.  The claim
    has the data bit 0 for it; the reconstructor emits the data bit 1. *)
Lemma C1_counterexample :
  cut_pulses 4 10 11 16 (fresh [100; 6; 6]) = Normal (1, 2) (fresh [100; 6; 6])
  /\ Z.testbit 1 0 = true /\ Z.testbit 1 1 = false
  /\ dissect_pair 1 0 (0, 0) (fresh [100; 6; 6])
     = Normal (1, 1) (fresh [100; 6; 6])
  /\ dissect_biphase (pad_space (1, 2)) (fresh [100; 6; 6])
     = Normal (1, 1) (fresh [100; 6; 6])
  /\ Z.testbit 1 0 <> false.
Proof. repeat split; try reflexivity. discriminate. Qed.

(** C1, amended.  Every aligned chip pair the biphase reconstructor
    processes and whose two chips differ emits the first chip of the pair
    as its data bit: 1 when the pair is a high-to-low transition (first chip
    high, second chip low: MARK then SPACE) and 0 when it is a low-to-high
    transition (first chip low, second chip high).  This holds pair by pair,
    and for all pairs of a chip stream the reconstructor walks to its end. *)
Theorem C1_transition_bit (short_min short_max long_min long_max : Z)
  (r : decode_results) :
  (forall (B i : Z) (d : list bool),
      0 <= i -> i + 1 < 64 -> len d < 64 ->
      Z.testbit B i <> Z.testbit B (i + 1) ->
      exists D,
        dissect_pair B i (bits_value d, len d) r = Normal (D, len d + 1) r /\
        (forall k, 0 <= k < len d ->
                   Z.testbit D k = Z.testbit (bits_value d) k) /\
        (Z.testbit B i = true -> Z.testbit B (i + 1) = false ->
         Z.testbit D (len d) = true) /\
        (Z.testbit B i = false -> Z.testbit B (i + 1) = true ->
         Z.testbit D (len d) = false)) /\
  (forall (B n D nd : Z) (r' r'' : decode_results),
      cut_pulses short_min short_max long_min long_max r = Normal (B, n) r' ->
      dissect_biphase (pad_space (B, n)) r' = Normal (D, nd) r'' ->
      forall k, 0 <= k < nd ->
        Z.testbit B (2 * k) <> Z.testbit B (2 * k + 1) /\
        (Z.testbit B (2 * k) = true -> Z.testbit B (2 * k + 1) = false ->
         Z.testbit D k = true) /\
        (Z.testbit B (2 * k) = false -> Z.testbit B (2 * k + 1) = true ->
         Z.testbit D k = false)).
Proof.
  split.
  - intros B i d Hi Hi1 Hd Hne.
    exists (bits_value (d ++ [Z.testbit B i])).
    rewrite dissect_pair_list by assumption.
    assert (Hnew : forall k, 0 <= k ->
              Z.testbit (bits_value (d ++ [Z.testbit B i])) k =
              if k <? len d then Z.testbit (bits_value d) k
              else if k =? len d then Z.testbit B i else false).
    { intros k Hk. replace k with (Z.of_nat (Z.to_nat k)) by lia.
      rewrite !bits_value_testbit.
      destruct (Z.ltb_spec (Z.of_nat (Z.to_nat k)) (len d)).
      - apply app_nth1. lia.
      - rewrite app_nth2 by lia.
        destruct (Z.eqb_spec (Z.of_nat (Z.to_nat k)) (len d)) as [He|He].
        + replace (Z.to_nat k - length d)%nat with 0%nat by lia. reflexivity.
        + destruct (Z.to_nat k - length d)%nat as [|[|m]] eqn:Hm;
            try reflexivity. lia. }
    destruct (Bool.eqb (Z.testbit B i) (Z.testbit B (i + 1))) eqn:E.
    + apply eqb_prop in E. contradiction.
    + rewrite length_app. cbn [length].
      replace (Z.of_nat (length d + 1)) with (len d + 1) by lia.
      split; [reflexivity|]. split; [|split].
      * intros k Hk. rewrite Hnew by lia.
        destruct (Z.ltb_spec k (len d)); [reflexivity|lia].
      * intros H1 _. rewrite Hnew, Z.ltb_irrefl, Z.eqb_refl by lia. exact H1.
      * intros H0 _. rewrite Hnew, Z.ltb_irrefl, Z.eqb_refl by lia. exact H0.
  - intros B n D nd r' r'' Hcut Hdis k Hk.
    apply cut_pulses_normal in Hcut as (-> & l & _ & _ & -> & -> & Hlen).
    rewrite pad_space_padded in Hdis.
    apply dissect_biphase_normal in Hdis
      as (-> & dl & _ & -> & -> & _ & Hbits);
      [|apply padded_bounds; lia|apply padded_even].
    specialize (Hbits (Z.to_nat k) ltac:(lia)).
    replace (Z.of_nat (Z.to_nat k)) with k in Hbits by lia.
    destruct Hbits as [Hfirst Hsecond].
    assert (HD : Z.testbit (bits_value dl) k = Z.testbit (bits_value l) (2 * k)).
    { rewrite <- Hfirst, <- bits_value_testbit. f_equal. lia. }
    rewrite HD.
    split; [|split].
    + rewrite Hsecond. destruct (Z.testbit (bits_value l) (2 * k)); discriminate.
    + intros H _. exact H.
    + intros H _. exact H.
Qed.

Lemma C1_transition_bit_witness :
  (exists D,
      dissect_pair 1 0 (bits_value [], len (@nil bool)) (fresh [])
      = Normal (D, len (@nil bool) + 1) (fresh []) /\
      Z.testbit D (len (@nil bool)) = true) /\
  cut_pulses 4 10 11 16 (fresh [100; 6]) = Normal (1, 1) (fresh [100; 6]) /\
  dissect_biphase (pad_space (1, 1)) (fresh [100; 6])
  = Normal (1, 1) (fresh [100; 6]) /\
  Z.testbit 1 (2 * 0) <> Z.testbit 1 (2 * 0 + 1).
Proof.
  split.
  - destruct (proj1 (C1_transition_bit 4 10 11 16 (fresh [])) 1 0 [])
      as (D & Hrun & _ & Hhigh & _);
      [lia | lia | cbn; lia | cbn; discriminate |].
    exists D. split; [exact Hrun|]. apply Hhigh; reflexivity.
  - split; [reflexivity|]. split; [reflexivity|].
    apply (proj2 (C1_transition_bit 4 10 11 16 (fresh [100; 6]))
             1 1 1 1 (fresh [100; 6]) (fresh [100; 6]));
      [reflexivity | reflexivity | lia].
Defined.

(** C2. The capture of the documented example frame (start=1,
    customer=1101, address=01, frametype=10, battery=1, payload=00011110),
    with every duration in the 38 kHz window of its pulse, decodes
    successfully: the address field becomes 0b110101101 = 0x1AD = 429, the
    value field 0b00011110 = 0x1E = 30 and the bit count 8. *)
Theorem C2_documented_frame {P : Platform} (r : decode_results) (gap : Z)
  (slots : list Z) :
  rawbuf r = gap :: slots ->
  map (classify RSTEP_SHORT_PULSE_38k_MIN_TICKS RSTEP_SHORT_PULSE_38k_MAX_TICKS
         RSTEP_LONG_PULSE_38k_MIN_TICKS RSTEP_LONG_PULSE_38k_MAX_TICKS) slots
  = documented_pulses ->
  decodeRstep r =
  Normal true
    {| decode_type := RSTEP; address := 429; value := 30; bits := 8;
       rawbuf := rawbuf r |}.
Proof.
  intros Hbuf Hmap. unfold decodeRstep, call, bind.
  rewrite (decodeRstepInternal_documented r gap slots Hbuf Hmap).
  reflexivity.
Qed.

Lemma C2_documented_frame_witness :
  rawbuf (fresh documented_capture) = 100 :: tl documented_capture /\
  map (classify RSTEP_SHORT_PULSE_38k_MIN_TICKS RSTEP_SHORT_PULSE_38k_MAX_TICKS
         RSTEP_LONG_PULSE_38k_MIN_TICKS RSTEP_LONG_PULSE_38k_MAX_TICKS)
      (tl documented_capture) = documented_pulses /\
  decodeRstep (P := avr) (fresh documented_capture) =
  Normal true
    {| decode_type := RSTEP; address := 429; value := 30; bits := 8;
       rawbuf := documented_capture |}.
Proof.
  split; [reflexivity|]. split; [reflexivity|].
  apply (C2_documented_frame (P := avr) (fresh documented_capture) 100
           (tl documented_capture)); reflexivity.
Defined.

(** C3. When the attempt has recovered a data-bit stream of [n >= 10]
    bits, it succeeds.  Bit 0, the start bit, appears in no output field;
    bits 1 to 9 are packed most-significant-first into the address field
    (bit 1 is bit 8 of the address, bit 9 is bit 0); bits 10 to [n - 1] are
    packed most-significant-first into the value field (bit 10 is its
    highest bit, bit [n - 1] is bit 0); the bit count is [n - 10]. *)
Theorem C3_field_extraction {P : Platform}
  (short_min short_max long_min long_max : Z) (r r' : decode_results)
  (D n : Z) :
  recovered_data_bits short_min short_max long_min long_max r
  = Normal (D, n) r' ->
  10 <= n ->
  exists out,
    decodeRstepInternal short_min short_max long_min long_max r
    = Normal true out /\
    out =
    {| decode_type := RSTEP;
       address := pack_msb_first (map (Z.testbit D) [1; 2; 3; 4; 5; 6; 7; 8; 9]);
       value := pack_msb_first (map (Z.testbit D) (for_range 10 n 1));
       bits := n - 10;
       rawbuf := rawbuf r |} /\
    (forall k, 0 <= k < 9 ->
               Z.testbit (address out) (8 - k) = Z.testbit D (1 + k)) /\
    (forall k, 9 <= k -> Z.testbit (address out) k = false) /\
    (forall k, 0 <= k < n - 10 ->
               Z.testbit (value out) (n - 11 - k) = Z.testbit D (10 + k)) /\
    (forall k, n - 10 <= k -> Z.testbit (value out) k = false).
Proof.
  intros Hrec Hn. rewrite attempt_of_recovered, Hrec.
  apply recovered_normal in Hrec as (-> & Hn32 & HD).
  destruct (Z.ltb_spec n 10); [lia|].
  eexists. split; [reflexivity|].
  rewrite decoded_fields by lia. split; [reflexivity|]. cbn [address value].
  assert (Hhigh : forall (l : list bool) k,
             len l <= k -> Z.testbit (pack_msb_first l) k = false).
  { intros l k Hk. unfold pack_msb_first. fold (pack_from 0 l).
    destruct (pack_from_range l) as [H0 H1].
    destruct (Z.eq_dec (pack_from 0 l) 0) as [->|Hne]; [apply Z.testbit_0_l|].
    apply Z.bits_above_log2; [lia|].
    apply Z.log2_lt_pow2; [lia|].
    eapply Z.lt_le_trans; [exact H1|]. apply Z.pow_le_mono_r; lia. }
  repeat split.
  - intros k Hk. change [1; 2; 3; 4; 5; 6; 7; 8; 9] with (for_range 1 10 1).
    replace (8 - k) with (10 - 1 - 1 - k) by lia.
    apply pack_range_testbit. lia.
  - intros k Hk. apply Hhigh. cbn. lia.
  - intros k Hk. replace (n - 11 - k) with (n - 10 - 1 - k) by lia.
    apply pack_range_testbit. lia.
  - intros k Hk. apply Hhigh.
    rewrite length_map, for_range_length by lia. lia.
Qed.

Lemma C3_field_extraction_witness :
  recovered_data_bits 4 10 11 16 (fresh documented_capture)
  = Normal (123607, 18) (fresh documented_capture) /\
  10 <= 18 /\
  exists out,
    decodeRstepInternal (P := avr) 4 10 11 16 (fresh documented_capture)
    = Normal true out /\
    out =
    {| decode_type := RSTEP;
       address :=
         pack_msb_first (map (Z.testbit 123607) [1; 2; 3; 4; 5; 6; 7; 8; 9]);
       value := pack_msb_first (map (Z.testbit 123607) (for_range 10 18 1));
       bits := 18 - 10;
       rawbuf := rawbuf (fresh documented_capture) |}.
Proof.
  split; [reflexivity|]. split; [lia|].
  destruct (C3_field_extraction (P := avr) 4 10 11 16
              (fresh documented_capture) (fresh documented_capture) 123607 18)
    as (out & Hrun & Hout & _); [reflexivity | lia |].
  exists out. split; assumption.
Defined.

(** C4. Whenever a decode attempt returns the failure signal, with either
    tick table or any other, the caller's result structure is the one it
    was before the attempt: no field has been written.  The same holds for
    the top-level decode when both attempts fail. *)
Theorem C4_failure_leaves_result_untouched {P : Platform}
  (r r' : decode_results) :
  (forall short_min short_max long_min long_max : Z,
      decodeRstepInternal short_min short_max long_min long_max r
      = Normal false r' ->
      r' = r) /\
  (decodeRstep r = Normal false r' -> r' = r).
Proof.
  split.
  - intros short_min short_max long_min long_max.
    apply attempt_failure_untouched.
  - rewrite decodeRstep_attempts.
    destruct (fast_attempt r) as [|b r1|[|] r1] eqn:Hfast; try discriminate.
    + exfalso. exact (call_not_returned _ _ _ _ Hfast).
    + apply attempt_failure_untouched in Hfast as ->.
      destruct (slow_attempt r) as [|b r2|b r2] eqn:Hslow; try discriminate.
      * exfalso. exact (call_not_returned _ _ _ _ Hslow).
      * intros H. injection H as -> ->.
        exact (attempt_failure_untouched _ _ _ _ _ _ Hslow).
Qed.

Lemma C4_failure_leaves_result_untouched_witness :
  decodeRstepInternal (P := avr) 4 10 11 16 (fresh [100; 6; 3; 6])
  = Normal false (fresh [100; 6; 3; 6]) /\
  decodeRstep (P := avr) (fresh [100; 6; 20; 6])
  = Normal false (fresh [100; 6; 20; 6]) /\
  fresh [100; 6; 3; 6] = fresh [100; 6; 3; 6] /\
  fresh [100; 6; 20; 6] = fresh [100; 6; 20; 6].
Proof.
  split; [reflexivity|]. split; [reflexivity|]. split.
  - apply (proj1 (C4_failure_leaves_result_untouched (P := avr)
                    (fresh [100; 6; 3; 6]) (fresh [100; 6; 3; 6]))
             4 10 11 16).
    reflexivity.
  - apply (proj2 (C4_failure_leaves_result_untouched (P := avr)
                    (fresh [100; 6; 20; 6]) (fresh [100; 6; 20; 6]))).
    reflexivity.
Defined.

(** C5. The top-level decode tries the 38 kHz table first.  When that
    attempt succeeds its result is the result of the decode, whatever the
    56 kHz table would give; when it fails, the capture and the result
    structure are as before and the decode is the 56 kHz attempt on them.
    The decode succeeds exactly when one of the two attempts succeeds, and
    fails exactly when both fail. *)
Theorem C5_fast_then_slow {P : Platform} (r : decode_results) :
  (forall r', fast_attempt r = Normal true r' ->
              decodeRstep r = Normal true r') /\
  (forall r', fast_attempt r = Normal false r' ->
              r' = r /\ decodeRstep r = slow_attempt r) /\
  ((exists r', decodeRstep r = Normal true r') <->
   (exists r', fast_attempt r = Normal true r') \/
   (exists r', slow_attempt r = Normal true r')) /\
  ((exists r', decodeRstep r = Normal false r') <->
   (exists r', fast_attempt r = Normal false r') /\
   (exists r', slow_attempt r = Normal false r')).
Proof.
  assert (Hslow : match slow_attempt r with
                  | Undefined => Undefined
                  | Returned b r'' | Normal b r'' => Normal b r''
                  end = slow_attempt r).
  { destruct (slow_attempt r) as [|b r2|b r2] eqn:Hs; try reflexivity.
    exfalso. exact (call_not_returned _ _ _ _ Hs). }
  rewrite decodeRstep_attempts.
  destruct (fast_attempt r) as [|b r1|[|] r1] eqn:Hfast.
  - split; [discriminate|]. split; [discriminate|]. split; split.
    + intros (r' & H). discriminate.
    + intros [(r' & H)|(r' & H)]; [discriminate|].
      exfalso. exact (fast_undefined_slow r r' Hfast H).
    + intros (r' & H). discriminate.
    + intros ((r' & H) & _). discriminate.
  - exfalso. exact (call_not_returned _ _ _ _ Hfast).
  - split; [intros r' H; exact H|]. split; [discriminate|]. split; split.
    + intros _. left. exists r1. reflexivity.
    + intros _. exists r1. reflexivity.
    + intros (r' & H). discriminate.
    + intros ((r' & H) & _). discriminate.
  - apply attempt_failure_untouched in Hfast as Heq. subst r1.
    rewrite Hslow.
    split; [discriminate|].
    split; [intros r' H; injection H as <-; split; reflexivity|].
    split; split.
    + intros (r' & H). right. exists r'. exact H.
    + intros [(r' & H)|(r' & H)]; [discriminate|]. exists r'. exact H.
    + intros (r' & H). split; [exists r; reflexivity|exists r'; exact H].
    + intros (_ & r' & H). exists r'. exact H.
Qed.

Lemma C5_fast_then_slow_witness :
  fast_attempt (P := avr) (fresh documented_capture)
  = Normal true (mk_decode_results RSTEP 429 30 8 documented_capture) /\
  decodeRstep (P := avr) (fresh documented_capture)
  = Normal true (mk_decode_results RSTEP 429 30 8 documented_capture) /\
  fast_attempt (P := avr) (fresh [100; 3; 3; 3])
  = Normal false (fresh [100; 3; 3; 3]) /\
  decodeRstep (P := avr) (fresh [100; 3; 3; 3])
  = slow_attempt (P := avr) (fresh [100; 3; 3; 3]).
Proof.
  split; [reflexivity|]. split.
  - apply (proj1 (C5_fast_then_slow (P := avr) (fresh documented_capture))
             (mk_decode_results RSTEP 429 30 8 documented_capture)).
    reflexivity.
  - split; [reflexivity|].
    apply (proj1 (proj2 (C5_fast_then_slow (P := avr) (fresh [100; 3; 3; 3])))
             (fresh [100; 3; 3; 3])).
    reflexivity.
Defined.

(** C6. With a tick table whose two windows do not overlap, the classifier
    takes the slots 1 to [rawlen - 1] in order.  A duration inside the
    inclusive short window is short and adds one chip, a duration inside
    the inclusive long window is long and adds two identical chips; the
    chips of a mark slot (odd index) are high, those of a space slot (even
    index) are low.  A duration outside both windows makes the attempt
    return the failure signal at that slot, with nothing written to the
    result, and a capture that holds such a duration never decodes.  The
    chip stream Part I hands on is the expansion of all slots, and it is
    handed on whenever that expansion fits the 64-bit accumulator. *)
Theorem C6_classifier_and_expansion {P : Platform}
  (short_min short_max long_min long_max : Z) (r : decode_results) :
  short_max < long_min ->
  (forall (i t : Z) (l : list bool),
      (short_min <= t <= short_max ->
       classify short_min short_max long_min long_max t = Short /\
       (len l + 1 <= 64 ->
        cut_slot short_min short_max long_min long_max i t
          (bits_value l, len l) r
        = Normal (bits_value (l ++ [Z.odd i]), len l + 1) r)) /\
      (long_min <= t <= long_max ->
       classify short_min short_max long_min long_max t = Long /\
       (len l + 2 <= 64 ->
        cut_slot short_min short_max long_min long_max i t
          (bits_value l, len l) r
        = Normal (bits_value (l ++ [Z.odd i; Z.odd i]), len l + 2) r)) /\
      (~ short_min <= t <= short_max -> ~ long_min <= t <= long_max ->
       classify short_min short_max long_min long_max t = Invalid /\
       forall st,
         cut_slot short_min short_max long_min long_max i t st r
         = Returned false r)) /\
  (forall chips : list bool,
      expand short_min short_max long_min long_max 1 (tl (rawbuf r))
      = Some chips ->
      len chips <= 64 ->
      cut_pulses short_min short_max long_min long_max r
      = Normal (bits_value chips, len chips) r) /\
  (forall (B n : Z) (r' : decode_results),
      cut_pulses short_min short_max long_min long_max r = Normal (B, n) r' ->
      r' = r /\
      exists chips,
        expand short_min short_max long_min long_max 1 (tl (rawbuf r))
        = Some chips /\ B = bits_value chips /\ n = len chips) /\
  (forall (pre post : list Z) (t : Z) (chips : list bool),
      tl (rawbuf r) = pre ++ t :: post ->
      expand short_min short_max long_min long_max 1 pre = Some chips ->
      len chips <= 64 ->
      ~ short_min <= t <= short_max -> ~ long_min <= t <= long_max ->
      cut_pulses short_min short_max long_min long_max r = Returned false r /\
      decodeRstepInternal short_min short_max long_min long_max r
      = Normal false r) /\
  (forall t : Z,
      In t (tl (rawbuf r)) ->
      ~ short_min <= t <= short_max -> ~ long_min <= t <= long_max ->
      forall out,
        decodeRstepInternal short_min short_max long_min long_max r
        <> Normal true out).
Proof.
  intros Hdisjoint.
  assert (Hshort : forall t, short_min <= t <= short_max ->
            classify short_min short_max long_min long_max t = Short).
  { intros t Ht. unfold classify.
    destruct (Z.leb_spec short_min t), (Z.leb_spec t short_max);
      try lia; reflexivity. }
  assert (Hlong : forall t, long_min <= t <= long_max ->
            classify short_min short_max long_min long_max t = Long).
  { intros t Ht. unfold classify.
    destruct (Z.leb_spec short_min t), (Z.leb_spec t short_max),
      (Z.leb_spec long_min t), (Z.leb_spec t long_max);
      try lia; reflexivity. }
  assert (Hinvalid : forall t,
            ~ short_min <= t <= short_max -> ~ long_min <= t <= long_max ->
            classify short_min short_max long_min long_max t = Invalid).
  { intros t Hs Hl. unfold classify.
    destruct (Z.leb_spec short_min t), (Z.leb_spec t short_max),
      (Z.leb_spec long_min t), (Z.leb_spec t long_max);
      try lia; reflexivity. }
  split; [|split; [|split; [|split]]].
  - intros i t l. split; [|split].
    + intros Ht. split; [exact (Hshort t Ht)|]. intros Hl.
      rewrite cut_slot_list. unfold slot_chips. rewrite (Hshort t Ht).
      change (len [level i]) with 1.
      destruct (Z.leb_spec (len l + 1) 64); [|lia].
      rewrite length_app. cbn [length]. unfold level. do 2 f_equal. lia.
    + intros Ht. split; [exact (Hlong t Ht)|]. intros Hl.
      rewrite cut_slot_list. unfold slot_chips. rewrite (Hlong t Ht).
      change (len [level i; level i]) with 2.
      destruct (Z.leb_spec (len l + 2) 64); [|lia].
      rewrite length_app. cbn [length]. unfold level. do 2 f_equal. lia.
    + intros Hs Hl. split; [exact (Hinvalid t Hs Hl)|]. intros st.
      pose proof (Hinvalid t Hs Hl) as Hc. unfold classify in Hc.
      unfold cut_slot.
      destruct ((short_min <=? t) && (t <=? short_max)); [discriminate|].
      destruct ((long_min <=? t) && (t <=? long_max)); [discriminate|].
      destruct (i mod 2 =? 1); reflexivity.
  - intros chips Hexp Hlen. rewrite cut_pulses_run.
    rewrite (cut_run_expand _ _ _ _ _ 1 [] chips Hexp). cbn [length app].
    destruct (Z.leb_spec (Z.of_nat 0 + len chips) 64); [reflexivity|lia].
  - intros B n r' Hcut.
    apply cut_pulses_normal in Hcut as (-> & l & Hexp & _ & -> & -> & _).
    split; [reflexivity|]. exists l. repeat split. exact Hexp.
  - intros pre post t chips Hbuf Hexp Hlen Hs Hl.
    rewrite decodeRstepInternal_run, cut_pulses_run, Hbuf.
    rewrite (cut_run_invalid _ _ _ _ pre post t 1 [] chips Hexp)
      by (cbn [length]; try lia; exact (Hinvalid t Hs Hl)).
    split; reflexivity.
  - intros t Hin Hs Hl out. rewrite decodeRstepInternal_run.
    destruct (cut_run short_min short_max long_min long_max 1 (tl (rawbuf r)) [])
      as [| |l] eqn:Hrun; try discriminate.
    apply cut_run_chips in Hrun as (c & Hexp & _); [|cbn; lia].
    rewrite (expand_invalid _ _ _ _ _ t Hin (Hinvalid t Hs Hl)) in Hexp.
    discriminate.
Qed.

Lemma C6_classifier_and_expansion_witness :
  (4 <= 6 <= 10 /\
   cut_slot 4 10 11 16 1 6 (bits_value [], len (@nil bool)) (fresh [100; 6; 13; 3])
   = Normal (bits_value ([] ++ [Z.odd 1]), len (@nil bool) + 1)
       (fresh [100; 6; 13; 3])) /\
  (11 <= 13 <= 16 /\
   cut_slot 4 10 11 16 2 13 (bits_value [true], len [true])
     (fresh [100; 6; 13; 3])
   = Normal (bits_value ([true] ++ [Z.odd 2; Z.odd 2]), len [true] + 2)
       (fresh [100; 6; 13; 3])) /\
  (tl (rawbuf (fresh [100; 6; 13; 3])) = [6; 13] ++ 3 :: [] /\
   expand 4 10 11 16 1 [6; 13] = Some [true; false; false] /\
   decodeRstepInternal (P := avr) 4 10 11 16 (fresh [100; 6; 13; 3])
   = Normal false (fresh [100; 6; 13; 3])) /\
  (expand 4 10 11 16 1 (tl (rawbuf (fresh [100; 6; 13])))
   = Some [true; false; false] /\
   cut_pulses 4 10 11 16 (fresh [100; 6; 13])
   = Normal (bits_value [true; false; false], len [true; false; false])
       (fresh [100; 6; 13])).
Proof.
  pose proof (C6_classifier_and_expansion (P := avr) 4 10 11 16
                (fresh [100; 6; 13; 3]) ltac:(lia))
    as (Hslot & _ & _ & Hreject & _).
  split; [|split; [|split]].
  - split; [lia|].
    apply (proj2 (proj1 (Hslot 1 6 []) ltac:(lia))). cbn. lia.
  - split; [lia|].
    apply (proj2 (proj1 (proj2 (Hslot 2 13 [true])) ltac:(lia))). cbn. lia.
  - split; [reflexivity|]. split; [reflexivity|].
    apply (Hreject [6; 13] [] 3 [true; false; false]);
      try reflexivity; cbn; lia.
  - split; [reflexivity|].
    apply (proj1 (proj2 (C6_classifier_and_expansion (P := avr) 4 10 11 16
                           (fresh [100; 6; 13]) ltac:(lia)))
             [true; false; false]); [reflexivity|cbn; lia].
Defined.

(** C7. When the chip stream that Part III consumes, that is the stream
    after padding, has an aligned pair of two equal chips, the walk over
    the pairs stops with the failure signal and so does the attempt, the
    result structure untouched.  In particular an attempt whose aligned
    pairs are all equal-valued fails. *)
Theorem C7_equal_pair_fails {P : Platform}
  (short_min short_max long_min long_max : Z) (r r' : decode_results)
  (chips : Z * Z) (B n : Z) :
  cut_pulses short_min short_max long_min long_max r = Normal chips r' ->
  pad_space chips = (B, n) ->
  ((exists i, 0 <= i < n /\ i mod 2 = 0 /\
              Z.testbit B i = Z.testbit B (i + 1)) ->
   dissect_biphase (B, n) r' = Returned false r' /\
   decodeRstepInternal short_min short_max long_min long_max r
   = Normal false r) /\
  ((forall i, 0 <= i < n -> i mod 2 = 0 ->
              Z.testbit B i = Z.testbit B (i + 1)) ->
   decodeRstepInternal short_min short_max long_min long_max r
   = Normal false r).
Proof.
  intros Hcut Hpad. destruct chips as [B0 n0].
  apply cut_pulses_normal in Hcut as (-> & l & _ & Hrun & -> & -> & Hlen).
  rewrite pad_space_padded in Hpad. injection Hpad as <- <-.
  assert (Hp := padded_bounds (len l) ltac:(lia)).
  assert (He := padded_even (len l)).
  assert (Hpair : (exists i, 0 <= i < padded (len l) /\ i mod 2 = 0 /\
                     Z.testbit (bits_value l) i
                     = Z.testbit (bits_value l) (i + 1)) ->
                  dissect_run (bits_value l) 0
                    (Z.to_nat (padded (len l) / 2)) [] = None).
  { intros (i & Hi & Hieven & Heq). apply dissect_run_none.
    assert (Hi2 : i = 2 * (i / 2)) by (rewrite (Z.div_mod i 2) at 1; lia).
    assert (Hn2 : padded (len l) = 2 * (padded (len l) / 2))
      by (rewrite (Z.div_mod (padded (len l)) 2) at 1; lia).
    exists (Z.to_nat (i / 2)). split; [lia|].
    replace (0 + 2 * Z.of_nat (Z.to_nat (i / 2))) with i by lia.
    exact Heq. }
  split.
  - intros Hex. apply Hpair in Hex.
    rewrite dissect_biphase_run, decodeRstepInternal_run, Hrun, Hex
      by assumption.
    split; reflexivity.
  - intros Hall. rewrite decodeRstepInternal_run, Hrun.
    destruct (Z.eq_dec (padded (len l)) 0) as [H0|Hne].
    + rewrite H0. reflexivity.
    + rewrite Hpair; [reflexivity|].
      exists 0. split; [lia|]. split; [reflexivity|].
      apply Hall; [lia|reflexivity].
Qed.

Lemma C7_equal_pair_fails_witness :
  cut_pulses 4 10 11 16 (fresh [100; 13; 6]) = Normal (3, 3) (fresh [100; 13; 6])
  /\ pad_space (3, 3) = (3, 4)
  /\ (0 <= 0 < 4 /\ 0 mod 2 = 0 /\ Z.testbit 3 0 = Z.testbit 3 (0 + 1))
  /\ dissect_biphase (3, 4) (fresh [100; 13; 6])
     = Returned false (fresh [100; 13; 6])
  /\ decodeRstepInternal (P := avr) 4 10 11 16 (fresh [100; 13; 6])
     = Normal false (fresh [100; 13; 6])
  /\ cut_pulses 4 10 11 16 (fresh [100; 13; 13])
     = Normal (3, 4) (fresh [100; 13; 13])
  /\ decodeRstepInternal (P := avr) 4 10 11 16 (fresh [100; 13; 13])
     = Normal false (fresh [100; 13; 13]).
Proof.
  split; [reflexivity|]. split; [reflexivity|].
  split; [repeat split; lia|].
  destruct (proj1 (C7_equal_pair_fails (P := avr) 4 10 11 16
                     (fresh [100; 13; 6]) (fresh [100; 13; 6]) (3, 3) 3 4
                     eq_refl eq_refl)) as [Hwalk Hfail].
  { exists 0. repeat split; lia. }
  split; [exact Hwalk|]. split; [exact Hfail|].
  split; [reflexivity|].
  apply (proj2 (C7_equal_pair_fails (P := avr) 4 10 11 16
                  (fresh [100; 13; 13]) (fresh [100; 13; 13]) (3, 4) 3 4
                  eq_refl eq_refl)).
  intros i Hi Heven.
  assert (Hcases : i = 0 \/ i = 1 \/ i = 2 \/ i = 3) by lia.
  destruct Hcases as [-> | [-> | [-> | ->]]];
    try reflexivity; discriminate Heven.
Defined.

(** C8. An attempt that recovers exactly 10 data bits succeeds with a bit
    count of 0 and a value of 0; an attempt that recovers 9 data bits or
    fewer returns the failure signal and leaves the result untouched. *)
Theorem C8_ten_bits_or_fewer {P : Platform}
  (short_min short_max long_min long_max : Z) (r r' : decode_results)
  (D n : Z) :
  recovered_data_bits short_min short_max long_min long_max r
  = Normal (D, n) r' ->
  (n = 10 ->
   exists out,
     decodeRstepInternal short_min short_max long_min long_max r
     = Normal true out /\
     bits out = 0 /\ value out = 0 /\ decode_type out = RSTEP) /\
  (n <= 9 ->
   decodeRstepInternal short_min short_max long_min long_max r
   = Normal false r).
Proof.
  intros Hrec. rewrite attempt_of_recovered, Hrec.
  apply recovered_normal in Hrec as (-> & Hn32 & HD).
  split.
  - intros ->. eexists. split; [reflexivity|].
    rewrite decoded_fields by lia. repeat split.
  - intros Hn. destruct (Z.ltb_spec n 10); [reflexivity|lia].
Qed.

Lemma C8_ten_bits_or_fewer_witness :
  (recovered_data_bits 4 10 11 16 (fresh (100 :: repeat 6 19))
   = Normal (1023, 10) (fresh (100 :: repeat 6 19)) /\
   exists out,
     decodeRstepInternal (P := avr) 4 10 11 16 (fresh (100 :: repeat 6 19))
     = Normal true out /\
     bits out = 0 /\ value out = 0 /\ decode_type out = RSTEP) /\
  (recovered_data_bits 4 10 11 16 (fresh (100 :: repeat 6 17))
   = Normal (511, 9) (fresh (100 :: repeat 6 17)) /\
   decodeRstepInternal (P := avr) 4 10 11 16 (fresh (100 :: repeat 6 17))
   = Normal false (fresh (100 :: repeat 6 17))).
Proof.
  split.
  - split; [reflexivity|].
    apply (proj1 (C8_ten_bits_or_fewer (P := avr) 4 10 11 16
                    (fresh (100 :: repeat 6 19)) (fresh (100 :: repeat 6 19))
                    1023 10 eq_refl)).
    reflexivity.
  - split; [reflexivity|].
    apply (proj2 (C8_ten_bits_or_fewer (P := avr) 4 10 11 16
                    (fresh (100 :: repeat 6 17)) (fresh (100 :: repeat 6 17))
                    511 9 eq_refl)).
    lia.
Defined.

(** C9. For a capture that passes classification, the chip stream handed
    to the biphase reconstructor has an even length: an even chip count is
    kept, an odd one grows by exactly one chip, and that chip is low, the
    chips before it being those of the capture.  The reconstructor then
    walks complete pairs only, and when it reaches the end the number of
    data bits is half the padded chip count. *)
Theorem C9_padding (short_min short_max long_min long_max : Z)
  (r r' : decode_results) (B n : Z) :
  cut_pulses short_min short_max long_min long_max r = Normal (B, n) r' ->
  exists n',
    pad_space (B, n) = (B, n') /\
    n' mod 2 = 0 /\
    (n mod 2 = 0 -> n' = n) /\
    (n mod 2 = 1 -> n' = n + 1 /\ Z.testbit B n = false) /\
    (forall i, In i (for_range 0 n' 2) ->
               0 <= i /\ i mod 2 = 0 /\ i + 1 < n') /\
    (forall D nd r'',
        dissect_biphase (B, n') r' = Normal (D, nd) r'' -> 2 * nd = n').
Proof.
  intros Hcut.
  apply cut_pulses_normal in Hcut as (-> & l & _ & _ & -> & -> & Hlen).
  exists (padded (len l)).
  assert (Hp := padded_bounds (len l) ltac:(lia)).
  assert (He := padded_even (len l)).
  split; [apply pad_space_padded|]. split; [exact He|].
  split; [|split; [|split]].
  - intros H0. unfold padded. rewrite H0. reflexivity.
  - intros H1. unfold padded. rewrite H1. cbn [Z.eqb].
    split; [reflexivity|]. apply bits_value_testbit_high. lia.
  - intros i Hi. apply for_range_In in Hi as (k & Hk & -> & Hlt); [|lia].
    assert (Hn2 : padded (len l) = 2 * (padded (len l) / 2))
      by (rewrite (Z.div_mod (padded (len l)) 2) at 1; lia).
    split; [lia|]. split; [|lia].
    rewrite Z.add_0_l, Z.mul_comm. apply Z.mod_mul. lia.
  - intros D nd r'' Hdis.
    apply dissect_biphase_normal in Hdis as (_ & dl & _ & _ & _ & H2 & _);
      assumption.
Qed.

Lemma C9_padding_witness :
  cut_pulses 4 10 11 16 (fresh [100; 6; 6; 6]) = Normal (5, 3) (fresh [100; 6; 6; 6])
  /\ exists n',
       pad_space (5, 3) = (5, n') /\ n' mod 2 = 0 /\
       (3 mod 2 = 1 -> n' = 3 + 1 /\ Z.testbit 5 3 = false).
Proof.
  split; [reflexivity|].
  destruct (C9_padding 4 10 11 16 (fresh [100; 6; 6; 6]) (fresh [100; 6; 6; 6])
              5 3 eq_refl) as (n' & Hpad & Heven & _ & Hodd & _).
  exists n'. repeat split; try assumption; apply Hodd; assumption.
Defined.

(** C10, at the input where it fails.  When every duration of a capture is
    inside the short or the long window and the capture expands to more
    than 64 chips, Part I reaches a shift of the 64-bit accumulator by 64:
    the attempt has no defined outcome.  Nothing in the decoder keeps the
    chip count below 64. *)
Theorem C10_shift_count_reaches_64 {P : Platform}
  (short_min short_max long_min long_max : Z) (r : decode_results)
  (chips : list bool) :
  expand short_min short_max long_min long_max 1 (tl (rawbuf r)) = Some chips ->
  64 < len chips ->
  cut_pulses short_min short_max long_min long_max r = Undefined /\
  decodeRstepInternal short_min short_max long_min long_max r = Undefined.
Proof.
  intros Hexp Hlen.
  rewrite decodeRstepInternal_run, cut_pulses_run.
  rewrite (cut_run_expand _ _ _ _ _ 1 [] chips Hexp). cbn [length app].
  destruct (Z.leb_spec (Z.of_nat 0 + len chips) 64); [lia|].
  split; reflexivity.
Qed.

Lemma C10_shift_count_reaches_64_witness :
  expand 4 10 11 16 1 (tl (rawbuf (fresh (100 :: repeat 6 65))))
  = Some (map Z.odd (for_range 1 66 1)) /\
  64 < len (map Z.odd (for_range 1 66 1)) /\
  cut_pulses 4 10 11 16 (fresh (100 :: repeat 6 64))
  = Normal (bits_value (map Z.odd (for_range 1 65 1)), 64)
      (fresh (100 :: repeat 6 64)) /\
  cut_slot 4 10 11 16 65 6 (bits_value (map Z.odd (for_range 1 65 1)), 64)
    (fresh (100 :: repeat 6 65)) = Undefined /\
  cut_pulses 4 10 11 16 (fresh (100 :: repeat 6 65)) = Undefined /\
  decodeRstepInternal (P := avr) 4 10 11 16 (fresh (100 :: repeat 6 65))
  = Undefined.
Proof.
  split; [reflexivity|]. split; [reflexivity|]. split; [reflexivity|].
  split; [reflexivity|].
  apply (C10_shift_count_reaches_64 (P := avr) 4 10 11 16
           (fresh (100 :: repeat 6 65)) (map Z.odd (for_range 1 66 1)));
    reflexivity.
Defined.

(** * Further properties of the decoder *)

(** ** Chip counts *)

Lemma slot_chips_length (short_min short_max long_min long_max i t : Z)
  (c : list bool) :
  slot_chips short_min short_max long_min long_max i t = Some c ->
  1 <= len c <= 2.
Proof.
  unfold slot_chips.
  destruct (classify short_min short_max long_min long_max t);
    intros H; inversion H; cbn; lia.
Qed.

Lemma cut_run_bounds (short_min short_max long_min long_max : Z)
  (slots : list Z) :
  forall (i : Z) (l : list bool),
    match cut_run short_min short_max long_min long_max i slots l with
    | Overflow => 64 < len l + 2 * len slots
    | Rejected => True
    | Chips l' => len l + len slots <= len l' <= len l + 2 * len slots
    end.
Proof.
  induction slots as [|t rest IH]; intros i l; [cbn; lia|].
  cbn [cut_run].
  destruct (slot_chips short_min short_max long_min long_max i t) as [c|] eqn:Hc;
    [|exact I].
  apply slot_chips_length in Hc.
  destruct (Z.leb_spec (len l + len c) 64).
  - specialize (IH (i + 1) (l ++ c)).
    destruct (cut_run short_min short_max long_min long_max (i + 1) rest (l ++ c));
      rewrite ?length_app in *; cbn [length]; try exact I; lia.
  - cbn [length]. lia.
Qed.

Lemma tl_length (r : decode_results) :
  len (tl (rawbuf r)) = Z.max 0 (rawlen r - 1).
Proof. unfold rawlen. destruct (rawbuf r); cbn [tl length]; lia. Qed.

(** What a successful attempt went through. *)
Lemma attempt_success {P : Platform}
  (short_min short_max long_min long_max : Z) (r out : decode_results) :
  decodeRstepInternal short_min short_max long_min long_max r = Normal true out ->
  exists l d,
    cut_run short_min short_max long_min long_max 1 (tl (rawbuf r)) [] = Chips l
    /\ dissect_run (bits_value l) 0 (Z.to_nat (padded (len l) / 2)) [] = Some d
    /\ len l <= 64 /\ 2 * len d = padded (len l) /\ 10 <= len d <= 32
    /\ out = decoded (bits_value d) (len d) r.
Proof.
  rewrite decodeRstepInternal_run.
  destruct (cut_run short_min short_max long_min long_max 1 (tl (rawbuf r)) [])
    as [| |l] eqn:Hrun; try discriminate.
  destruct (dissect_run (bits_value l) 0 (Z.to_nat (padded (len l) / 2)) [])
    as [d|] eqn:Hd; [|discriminate].
  destruct (Z.ltb_spec (len d) 10); [discriminate|].
  intros H'. injection H' as <-. exists l, d.
  pose proof Hrun as Hrun'. pose proof Hd as Hd'.
  apply cut_run_chips in Hrun' as (c & _ & -> & Hc); [|cbn; lia].
  cbn [app length] in *.
  apply dissect_run_some in Hd' as (dl & -> & Hlen & _). cbn [app] in *.
  assert (Hp := padded_bounds (len c) ltac:(lia)).
  assert (He := padded_even (len c)).
  assert (Hn2 : padded (len c) = 2 * (padded (len c) / 2))
    by (rewrite (Z.div_mod (padded (len c)) 2) at 1; lia).
  repeat split; try assumption; try reflexivity; lia.
Qed.

Lemma decodeRstep_success {P : Platform} (r out : decode_results) :
  decodeRstep r = Normal true out ->
  fast_attempt r = Normal true out \/
  (fast_attempt r = Normal false r /\ slow_attempt r = Normal true out).
Proof.
  rewrite decodeRstep_attempts.
  destruct (fast_attempt r) as [|b r1|[|] r1] eqn:Hfast; try discriminate.
  - exfalso. exact (call_not_returned _ _ _ _ Hfast).
  - intros H. injection H as <-. left. reflexivity.
  - apply attempt_failure_untouched in Hfast as Heq. subst r1.
    destruct (slow_attempt r) as [|b r2|b r2] eqn:Hslow; try discriminate.
    + exfalso. exact (call_not_returned _ _ _ _ Hslow).
    + intros H. injection H as -> ->. right. split; reflexivity.
Qed.

Lemma pack_msb_first_range (l : list bool) :
  0 <= pack_msb_first l < 2 ^ len l.
Proof. unfold pack_msb_first. apply (pack_from_range l). Qed.

(** X1. A successful decode, by an attempt with any tick table or by the
    top-level decode, reports between 0 and 22 payload bits, an address
    below 2^9 and a value below 2 to the power of the bit count; it tags the
    result RSTEP, leaves the capture as it was, and the capture has at
    least 11 and at most 65 entries. *)
Theorem X1_success_bounds {P : Platform} (r out : decode_results) :
  (forall short_min short_max long_min long_max : Z,
      decodeRstepInternal short_min short_max long_min long_max r
      = Normal true out ->
      decode_type out = RSTEP /\ 0 <= bits out <= 22 /\
      0 <= address out < 2 ^ 9 /\ 0 <= value out < 2 ^ bits out /\
      rawbuf out = rawbuf r /\ 11 <= rawlen r <= 65) /\
  (decodeRstep r = Normal true out ->
   decode_type out = RSTEP /\ 0 <= bits out <= 22 /\
   0 <= address out < 2 ^ 9 /\ 0 <= value out < 2 ^ bits out /\
   rawbuf out = rawbuf r /\ 11 <= rawlen r <= 65).
Proof.
  assert (Hone : forall short_min short_max long_min long_max : Z,
    decodeRstepInternal short_min short_max long_min long_max r
    = Normal true out ->
    decode_type out = RSTEP /\ 0 <= bits out <= 22 /\
    0 <= address out < 2 ^ 9 /\ 0 <= value out < 2 ^ bits out /\
    rawbuf out = rawbuf r /\ 11 <= rawlen r <= 65).
  { intros short_min short_max long_min long_max H.
    apply attempt_success in H as (l & d & Hrun & _ & Hl & Hd & Hn & ->).
    pose proof (cut_run_bounds short_min short_max long_min long_max
                  (tl (rawbuf r)) 1 []) as Hb.
    rewrite Hrun, tl_length in Hb. cbn [length] in Hb.
    rewrite decoded_fields by lia. cbn [decode_type bits address value rawbuf].
    split; [reflexivity|]. split; [lia|]. split; [|split; [|split]].
    - apply (pack_msb_first_range
               (map (Z.testbit (bits_value d)) [1; 2; 3; 4; 5; 6; 7; 8; 9])).
    - pose proof (pack_msb_first_range
                    (map (Z.testbit (bits_value d)) (for_range 10 (len d) 1)))
        as Hv.
      rewrite length_map, for_range_length in Hv by lia. exact Hv.
    - reflexivity.
    - unfold padded in Hd. destruct (len l mod 2 =? 0); lia. }
  split; [exact Hone|].
  intros H. apply decodeRstep_success in H as [H|[_ H]];
    [apply (Hone _ _ _ _ H)|apply (Hone _ _ _ _ H)].
Qed.

Lemma X1_success_bounds_witness :
  decodeRstep (P := avr) (fresh documented_capture)
  = Normal true (mk_decode_results RSTEP 429 30 8 documented_capture) /\
  0 <= bits (mk_decode_results RSTEP 429 30 8 documented_capture) <= 22 /\
  11 <= rawlen (fresh documented_capture) <= 65.
Proof.
  split; [reflexivity|].
  destruct (proj2 (X1_success_bounds (P := avr) (fresh documented_capture)
                     (mk_decode_results RSTEP 429 30 8 documented_capture))
              eq_refl) as (_ & Hbits & _ & _ & _ & Hlen).
  split; assumption.
Defined.

(** X2. A capture of at most 10 entries (the leading gap and up to nine
    durations, the empty capture included) cannot hold the ten data bits a
    frame needs: the attempt with any tick table and the top-level decode
    return the failure signal, the result untouched, and no shift leaves
    the accumulator. *)
Theorem X2_short_capture_fails {P : Platform} (r : decode_results) :
  rawlen r <= 10 ->
  (forall short_min short_max long_min long_max : Z,
      decodeRstepInternal short_min short_max long_min long_max r
      = Normal false r) /\
  decodeRstep r = Normal false r.
Proof.
  intros Hlen.
  assert (Hone : forall short_min short_max long_min long_max : Z,
    decodeRstepInternal short_min short_max long_min long_max r
    = Normal false r).
  { intros short_min short_max long_min long_max.
    rewrite decodeRstepInternal_run.
    pose proof (cut_run_bounds short_min short_max long_min long_max
                  (tl (rawbuf r)) 1 []) as Hb.
    rewrite tl_length in Hb. cbn [length] in Hb.
    destruct (cut_run short_min short_max long_min long_max 1 (tl (rawbuf r)) [])
      as [| |l]; [lia|reflexivity|].
    destruct (dissect_run (bits_value l) 0 (Z.to_nat (padded (len l) / 2)) [])
      as [d|] eqn:Hd; [|reflexivity].
    apply dissect_run_some in Hd as (dl & -> & Hdl & _). cbn [app].
    assert (padded (len l) <= 18)
      by (unfold padded; destruct (Z.eqb_spec (len l mod 2) 0) as [He|He];
          [lia|]; assert (len l <> 18) by (intros E; rewrite E in He;
          apply He; reflexivity); lia).
    assert (padded (len l) / 2 <= 9) by (apply Z.div_le_upper_bound; lia).
    assert (0 <= padded (len l) / 2)
      by (apply Z.div_pos; unfold padded; destruct (len l mod 2 =? 0); lia).
    destruct (Z.ltb_spec (len dl) 10); [reflexivity|lia]. }
  split; [exact Hone|].
  rewrite decodeRstep_attempts. unfold fast_attempt, slow_attempt.
  rewrite !Hone. reflexivity.
Qed.

Lemma X2_short_capture_fails_witness :
  rawlen (fresh [100; 6; 6; 6; 6; 6; 6; 6; 6; 6]) <= 10 /\
  decodeRstep (P := avr) (fresh [100; 6; 6; 6; 6; 6; 6; 6; 6; 6])
  = Normal false (fresh [100; 6; 6; 6; 6; 6; 6; 6; 6; 6]) /\
  rawlen (fresh []) <= 10 /\
  decodeRstep (P := avr) (fresh []) = Normal false (fresh []).
Proof.
  split; [cbn; lia|]. split.
  - apply (X2_short_capture_fails (P := avr)). cbn; lia.
  - split; [cbn; lia|]. apply (X2_short_capture_fails (P := avr)). cbn; lia.
Defined.

(** X3. For a capture of at most 33 entries (at most 32 durations) every
    shift count of the decoder stays below 64: the attempt with any tick
    table and the top-level decode have a defined outcome. *)
Theorem X3_defined_up_to_32_durations {P : Platform} (r : decode_results) :
  rawlen r <= 33 ->
  (forall short_min short_max long_min long_max : Z,
      decodeRstepInternal short_min short_max long_min long_max r
      <> Undefined) /\
  decodeRstep r <> Undefined.
Proof.
  intros Hlen.
  assert (Hone : forall short_min short_max long_min long_max : Z,
    decodeRstepInternal short_min short_max long_min long_max r
    <> Undefined).
  { intros short_min short_max long_min long_max.
    rewrite decodeRstepInternal_run.
    pose proof (cut_run_bounds short_min short_max long_min long_max
                  (tl (rawbuf r)) 1 []) as Hb.
    rewrite tl_length in Hb. cbn [length] in Hb.
    destruct (cut_run short_min short_max long_min long_max 1 (tl (rawbuf r)) [])
      as [| |l]; [lia|discriminate|].
    destruct (dissect_run (bits_value l) 0 (Z.to_nat (padded (len l) / 2)) [])
      as [d|]; [destruct (len d <? 10)|]; discriminate. }
  split; [exact Hone|].
  rewrite decodeRstep_attempts.
  destruct (fast_attempt r) as [|b r1|[|] r1] eqn:Hfast; try discriminate.
  - exfalso. exact (Hone _ _ _ _ Hfast).
  - apply attempt_failure_untouched in Hfast as Heq. subst r1.
    destruct (slow_attempt r) as [|b r2|b r2] eqn:Hslow; try discriminate.
    exfalso. exact (Hone _ _ _ _ Hslow).
Qed.

Lemma X3_defined_up_to_32_durations_witness :
  rawlen (fresh (100 :: repeat 13 32)) <= 33 /\
  decodeRstep (P := avr) (fresh (100 :: repeat 13 32)) <> Undefined.
Proof.
  split; [cbn; lia|].
  apply (X3_defined_up_to_32_durations (P := avr)). cbn; lia.
Defined.

(** ** An attempt reads the capture through its pulse classes only *)

Lemma cut_run_classes (short_min short_max long_min long_max : Z)
  (s1 : list Z) :
  forall (s2 : list Z) (i : Z) (l : list bool),
    map (classify short_min short_max long_min long_max) s1
    = map (classify short_min short_max long_min long_max) s2 ->
    cut_run short_min short_max long_min long_max i s1 l
    = cut_run short_min short_max long_min long_max i s2 l.
Proof.
  induction s1 as [|t1 s1 IH]; intros [|t2 s2] i l Hmap; try discriminate;
    [reflexivity|].
  cbn [map] in Hmap. injection Hmap as Ht Hrest.
  cbn [cut_run]. unfold slot_chips. rewrite Ht.
  destruct (classify short_min short_max long_min long_max t2);
    try reflexivity;
    match goal with
    | |- context [if ?c then _ else _] => destruct c; [apply IH; exact Hrest|reflexivity]
    end.
Qed.

Lemma attempt_by_classes {P : Platform}
  (short_min short_max long_min long_max : Z) (r1 r2 : decode_results) :
  map (classify short_min short_max long_min long_max) (tl (rawbuf r1))
  = map (classify short_min short_max long_min long_max) (tl (rawbuf r2)) ->
  decodeRstepInternal short_min short_max long_min long_max r2 =
  match decodeRstepInternal short_min short_max long_min long_max r1 with
  | Undefined => Undefined
  | Returned b o => Returned b o
  | Normal false _ => Normal false r2
  | Normal true o =>
      Normal true
        (mk_decode_results (decode_type o) (address o) (value o) (bits o)
           (rawbuf r2))
  end.
Proof.
  intros Hmap. rewrite !decodeRstepInternal_run.
  rewrite (cut_run_classes _ _ _ _ _ _ 1 [] Hmap).
  destruct (cut_run short_min short_max long_min long_max 1 (tl (rawbuf r2)) [])
    as [| |l]; try reflexivity.
  destruct (dissect_run (bits_value l) 0 (Z.to_nat (padded (len l) / 2)) [])
    as [d|]; [|reflexivity].
  destruct (len d <? 10); reflexivity.
Qed.

(** X4. Decoding twice gives what decoding once gave: an attempt, or the
    top-level decode, run on the structure a first run has returned returns
    the same signal and the same structure again. *)
Theorem X4_decode_twice {P : Platform} (r out : decode_results) (b : bool) :
  (forall short_min short_max long_min long_max : Z,
      decodeRstepInternal short_min short_max long_min long_max r
      = Normal b out ->
      decodeRstepInternal short_min short_max long_min long_max out
      = Normal b out) /\
  (decodeRstep r = Normal b out -> decodeRstep out = Normal b out).
Proof.
  assert (Hone : forall short_min short_max long_min long_max b' o,
    decodeRstepInternal short_min short_max long_min long_max r
    = Normal b' o ->
    decodeRstepInternal short_min short_max long_min long_max o
    = Normal b' o).
  { intros short_min short_max long_min long_max b' o H.
    assert (Hbuf : rawbuf o = rawbuf r).
    { destruct b'.
      - apply attempt_success in H as (l & d & _ & _ & _ & _ & _ & ->).
        reflexivity.
      - apply attempt_failure_untouched in H. subst o. reflexivity. }
    rewrite (attempt_by_classes short_min short_max long_min long_max r o)
      by (rewrite Hbuf; reflexivity).
    rewrite H. destruct b'; [|reflexivity].
    rewrite Hbuf.
    apply attempt_success in H as (l & d & _ & _ & _ & _ & _ & ->).
    reflexivity. }
  split; [intros; apply Hone; assumption|].
  intros H. destruct b.
  - apply decodeRstep_success in H as [H|[Hf H]].
    + rewrite decodeRstep_attempts. unfold fast_attempt in *.
      rewrite (Hone _ _ _ _ _ _ H). reflexivity.
    + assert (Hbuf : rawbuf out = rawbuf r).
      { unfold slow_attempt in H.
        apply attempt_success in H as (l & d & _ & _ & _ & _ & _ & ->).
        reflexivity. }
      rewrite decodeRstep_attempts. unfold fast_attempt, slow_attempt in *.
      rewrite (attempt_by_classes _ _ _ _ r out) by (rewrite Hbuf; reflexivity).
      rewrite Hf. rewrite (Hone _ _ _ _ _ _ H). reflexivity.
  - rewrite decodeRstep_attempts in H.
    destruct (fast_attempt r) as [|b1 r1|[|] r1] eqn:Hfast; try discriminate.
    + exfalso. exact (call_not_returned _ _ _ _ Hfast).
    + apply attempt_failure_untouched in Hfast as Heq. subst r1.
      destruct (slow_attempt r) as [|b2 r2|b2 r2] eqn:Hslow; try discriminate.
      * exfalso. exact (call_not_returned _ _ _ _ Hslow).
      * injection H as -> ->.
        apply attempt_failure_untouched in Hslow as Heq. subst out.
        rewrite decodeRstep_attempts, Hfast, Hslow. reflexivity.
Qed.

Lemma X4_decode_twice_witness :
  decodeRstep (P := avr) (fresh documented_capture)
  = Normal true (mk_decode_results RSTEP 429 30 8 documented_capture) /\
  decodeRstep (P := avr) (mk_decode_results RSTEP 429 30 8 documented_capture)
  = Normal true (mk_decode_results RSTEP 429 30 8 documented_capture).
Proof.
  split; [reflexivity|].
  apply (proj2 (X4_decode_twice (P := avr) (fresh documented_capture)
                  (mk_decode_results RSTEP 429 30 8 documented_capture) true)).
  reflexivity.
Defined.

(** X5. An attempt depends on the capture only through the class (short,
    long, neither) of each duration after the leading gap: two captures
    with the same classes, whatever the gap and the exact tick counts, are
    both undefined, or both fail, or both succeed with the same tag,
    address, value and bit count. *)
Theorem X5_same_classes_same_result {P : Platform}
  (short_min short_max long_min long_max : Z) (r1 r2 : decode_results) :
  map (classify short_min short_max long_min long_max) (tl (rawbuf r1))
  = map (classify short_min short_max long_min long_max) (tl (rawbuf r2)) ->
  (decodeRstepInternal short_min short_max long_min long_max r1 = Undefined ->
   decodeRstepInternal short_min short_max long_min long_max r2 = Undefined) /\
  (decodeRstepInternal short_min short_max long_min long_max r1
   = Normal false r1 ->
   decodeRstepInternal short_min short_max long_min long_max r2
   = Normal false r2) /\
  (forall o1,
      decodeRstepInternal short_min short_max long_min long_max r1
      = Normal true o1 ->
      exists o2,
        decodeRstepInternal short_min short_max long_min long_max r2
        = Normal true o2 /\
        decode_type o2 = decode_type o1 /\ address o2 = address o1 /\
        value o2 = value o1 /\ bits o2 = bits o1 /\ rawbuf o2 = rawbuf r2).
Proof.
  intros Hmap.
  rewrite (attempt_by_classes short_min short_max long_min long_max r1 r2 Hmap).
  split; [|split].
  - intros ->. reflexivity.
  - intros ->. reflexivity.
  - intros o1 ->. eexists. split; [reflexivity|]. repeat split.
Qed.

Lemma X5_same_classes_same_result_witness :
  map (classify 4 10 11 16) (tl (rawbuf (fresh documented_capture)))
  = map (classify 4 10 11 16)
      (tl (rawbuf (fresh (7 :: map (fun t => t + 2) (tl documented_capture)))))
  /\ exists o2,
       decodeRstepInternal (P := avr) 4 10 11 16
         (fresh (7 :: map (fun t => t + 2) (tl documented_capture)))
       = Normal true o2 /\ address o2 = 429 /\ value o2 = 30 /\ bits o2 = 8.
Proof.
  split; [reflexivity|].
  destruct (proj2 (proj2 (X5_same_classes_same_result (P := avr) 4 10 11 16
              (fresh documented_capture)
              (fresh (7 :: map (fun t => t + 2) (tl documented_capture)))
              eq_refl))
              (mk_decode_results RSTEP 429 30 8 documented_capture) eq_refl)
    as (o2 & Hrun & _ & Ha & Hv & Hb & _).
  exists o2. repeat split; assumption.
Defined.

(** ** The first and the last slot of a capture that decodes *)

Lemma classify_short (short_min short_max long_min long_max t : Z) :
  classify short_min short_max long_min long_max t = Short ->
  short_min <= t <= short_max.
Proof.
  unfold classify.
  destruct (Z.leb_spec short_min t), (Z.leb_spec t short_max); cbn [andb];
    try (intros _; lia);
    destruct ((long_min <=? t) && (t <=? long_max)); discriminate.
Qed.

Lemma expand_last (short_min short_max long_min long_max : Z)
  (slots : list Z) :
  forall (i : Z) (c : list bool),
    expand short_min short_max long_min long_max i slots = Some c ->
    slots <> [] ->
    nth (length c - 1) c false = Z.odd (i + len slots - 1).
Proof.
  induction slots as [|t rest IH]; intros i c Hexp Hne; [contradiction|].
  cbn [expand] in Hexp.
  destruct (slot_chips short_min short_max long_min long_max i t) as [c1|] eqn:Hc1;
    [|discriminate].
  destruct (expand short_min short_max long_min long_max (i + 1) rest)
    as [cs|] eqn:Hcs; [|discriminate].
  injection Hexp as <-.
  destruct rest as [|t' rest'].
  - cbn in Hcs. injection Hcs as <-. rewrite app_nil_r.
    cbn [length]. replace (i + Z.of_nat 1 - 1) with i by lia.
    unfold slot_chips, level in Hc1.
    destruct (classify short_min short_max long_min long_max t);
      inversion Hc1; reflexivity.
  - assert (Hcs' := Hcs).
    apply IH in Hcs; [|discriminate].
    assert (Hpos : (1 <= length cs)%nat).
    { cbn [expand] in Hcs'.
      destruct (slot_chips short_min short_max long_min long_max (i + 1) t')
        as [c2|] eqn:Hc2; [|discriminate].
      destruct (expand short_min short_max long_min long_max (i + 1 + 1) rest');
        [|discriminate].
      injection Hcs' as <-. apply slot_chips_length in Hc2.
      rewrite length_app. lia. }
    rewrite length_app, app_nth2 by lia.
    replace (length c1 + length cs - 1 - length c1)%nat
      with (length cs - 1)%nat by lia.
    rewrite Hcs. f_equal. cbn [length]. lia.
Qed.

(** X6. A capture that an attempt decodes begins, after the leading gap,
    with a short mark, and the first recovered data bit, the start bit, is
    1: the decoder has no test of the start bit, the biphase rule on the
    first chip pair enforces it. *)
Theorem X6_decoded_capture_starts_short {P : Platform}
  (short_min short_max long_min long_max : Z) (r out : decode_results) :
  decodeRstepInternal short_min short_max long_min long_max r = Normal true out ->
  (exists gap t rest,
      rawbuf r = gap :: t :: rest /\ short_min <= t <= short_max) /\
  (exists D n,
      recovered_data_bits short_min short_max long_min long_max r
      = Normal (D, n) r /\ Z.testbit D 0 = true).
Proof.
  intros H.
  apply attempt_success in H as (l & d & Hrun & Hd & Hl & H2 & Hn & ->).
  pose proof Hd as Hd'.
  apply dissect_run_some in Hd' as (dl & Heq & Hlen & Hbits).
  cbn [app] in Heq. subst dl.
  assert (Hk : (0 < Z.to_nat (padded (len l) / 2))%nat) by lia.
  destruct (Hbits 0%nat Hk) as [Hfirst Hsecond].
  change (0 + 2 * Z.of_nat 0 + 1) with (Z.of_nat 1) in Hsecond.
  change (0 + 2 * Z.of_nat 0) with (Z.of_nat 0) in Hfirst, Hsecond.
  rewrite !bits_value_testbit in Hfirst, Hsecond.
  assert (Hstart : exists gap t rest,
             rawbuf r = gap :: t :: rest /\
             classify short_min short_max long_min long_max t = Short /\
             nth 0 l false = true).
  { destruct (rawbuf r) as [|gap [|t rest]] eqn:Hbuf; cbn [tl] in Hrun.
    - cbn [cut_run] in Hrun. injection Hrun as <-.
      change (padded (len (@nil bool))) with 0 in H2. lia.
    - cbn [cut_run] in Hrun. injection Hrun as <-.
      change (padded (len (@nil bool))) with 0 in H2. lia.
    - cbn [cut_run] in Hrun.
      destruct (slot_chips short_min short_max long_min long_max 1 t)
        as [c|] eqn:Hc; [|discriminate].
      destruct (len [] + len c <=? 64); [|discriminate].
      apply cut_run_chips in Hrun as (cs & _ & -> & _);
        [|apply slot_chips_length in Hc; cbn [app]; lia].
      cbn [app] in *. unfold slot_chips, level in Hc.
      destruct (classify short_min short_max long_min long_max t) eqn:Hcls;
        inversion Hc; subst c.
      + exists gap, t, rest. split; [reflexivity|]. split; [exact Hcls|].
        reflexivity.
      + rewrite ?bits_value_testbit in Hsecond. cbn in Hsecond. discriminate. }
  destruct Hstart as (gap & t & rest & Hbuf & Hcls & Hchip).
  split.
  - exists gap, t, rest. split; [exact Hbuf|].
    exact (classify_short _ _ _ _ _ Hcls).
  - exists (bits_value d), (len d). split.
    + rewrite recovered_run, Hrun, Hd. reflexivity.
    + change 0 with (Z.of_nat 0). rewrite bits_value_testbit, Hfirst.
      exact Hchip.
Qed.

Lemma X6_decoded_capture_starts_short_witness :
  decodeRstepInternal (P := avr) 4 10 11 16 (fresh documented_capture)
  = Normal true (mk_decode_results RSTEP 429 30 8 documented_capture) /\
  exists gap t rest,
    rawbuf (fresh documented_capture) = gap :: t :: rest /\ 4 <= t <= 10.
Proof.
  split; [reflexivity|].
  apply (proj1 (X6_decoded_capture_starts_short (P := avr) 4 10 11 16
                  (fresh documented_capture)
                  (mk_decode_results RSTEP 429 30 8 documented_capture)
                  eq_refl)).
Defined.

(** X7. The padding of Part II only ever completes a capture that ends in
    a mark: when an attempt succeeds on a capture whose durations expand to
    an odd number of chips, the last slot of the capture is a mark slot
    (its index [rawlen - 1] is odd).  An odd chip stream that ends in a
    space is padded to a pair of two low chips and is rejected. *)
Theorem X7_padding_completes_a_mark {P : Platform}
  (short_min short_max long_min long_max : Z) (r r' out : decode_results)
  (B n : Z) :
  decodeRstepInternal short_min short_max long_min long_max r = Normal true out ->
  cut_pulses short_min short_max long_min long_max r = Normal (B, n) r' ->
  n mod 2 = 1 ->
  Z.odd (rawlen r - 1) = true.
Proof.
  intros Hsucc Hcut Hodd.
  apply cut_pulses_normal in Hcut as (-> & l & Hexp & Hrun & -> & -> & Hl).
  apply attempt_success in Hsucc as (l' & d & Hrun' & Hd & _ & H2 & Hn & _).
  rewrite Hrun in Hrun'. injection Hrun' as <-.
  assert (Hpad : padded (len l) = len l + 1)
    by (unfold padded; rewrite Hodd; reflexivity).
  rewrite Hpad in *.
  apply dissect_run_some in Hd as (dl & _ & _ & Hbits).
  assert (Hdiv : len l + 1 = 2 * ((len l + 1) / 2)).
  { pose proof (Z.div_mod (len l + 1) 2 ltac:(lia)) as Hdm.
    pose proof (padded_even (len l)) as He. rewrite Hpad in He. lia. }
  destruct (Hbits (Z.to_nat ((len l + 1) / 2 - 1)) ltac:(lia)) as [_ Hlast].
  replace (0 + 2 * Z.of_nat (Z.to_nat ((len l + 1) / 2 - 1)) + 1)
    with (len l) in Hlast by lia.
  replace (0 + 2 * Z.of_nat (Z.to_nat ((len l + 1) / 2 - 1)))
    with (Z.of_nat (length l - 1)) in Hlast by lia.
  rewrite bits_value_testbit_high in Hlast by lia.
  rewrite bits_value_testbit in Hlast.
  assert (Hne : tl (rawbuf r) <> []).
  { intros E. rewrite E in Hexp. cbn in Hexp. injection Hexp as <-.
    cbn in Hodd. discriminate. }
  rewrite (expand_last _ _ _ _ _ _ _ Hexp Hne) in Hlast.
  rewrite tl_length in Hlast.
  assert (Hraw : 1 <= rawlen r - 1).
  { pose proof (tl_length r) as Ht. destruct (tl (rawbuf r)); [contradiction|].
    cbn [length] in Ht. lia. }
  replace (1 + Z.max 0 (rawlen r - 1) - 1) with (rawlen r - 1) in Hlast by lia.
  destruct (Z.odd (rawlen r - 1)); [reflexivity|discriminate].
Qed.

Lemma X7_padding_completes_a_mark_witness :
  decodeRstepInternal (P := avr) 4 10 11 16 (fresh (100 :: repeat 6 19))
  = Normal true (mk_decode_results RSTEP 511 0 0 (100 :: repeat 6 19)) /\
  cut_pulses 4 10 11 16 (fresh (100 :: repeat 6 19))
  = Normal (349525, 19) (fresh (100 :: repeat 6 19)) /\
  19 mod 2 = 1 /\
  Z.odd (rawlen (fresh (100 :: repeat 6 19)) - 1) = true.
Proof.
  split; [reflexivity|]. split; [reflexivity|]. split; [reflexivity|].
  apply (X7_padding_completes_a_mark (P := avr) 4 10 11 16
           (fresh (100 :: repeat 6 19)) (fresh (100 :: repeat 6 19))
           (mk_decode_results RSTEP 511 0 0 (100 :: repeat 6 19))
           349525 19); reflexivity.
Defined.

(** ** Frames on the air and back *)

Lemma odd_next (i : Z) : Z.odd (i + 1) = negb (Z.odd i).
Proof. rewrite Z.add_1_r, Z.odd_succ, <- Z.negb_odd. reflexivity. Qed.

Lemma pulses_of_chips_pair (a b : bool) (rest : list bool) :
  pulses_of_chips (a :: b :: rest) =
  if Bool.eqb a b then Long :: pulses_of_chips rest
  else Short :: pulses_of_chips (b :: rest).
Proof. reflexivity. Qed.

(** The pulses of a frame give its chips back, whatever chip is pending
    before the frame. *)
Lemma pulses_pending (frame : list bool) :
  forall (i : Z) (p : bool),
    Z.odd i = p ->
    chips_of_pulses i (pulses_of_chips (p :: on_air frame))
    = Some (p :: on_air frame).
Proof.
  induction frame as [|b rest IH]; intros i p Hp.
  - cbn. unfold level. rewrite Hp. reflexivity.
  - assert (H1 : Z.odd (i + 1) = negb p) by (rewrite odd_next, Hp; reflexivity).
    assert (H2 : Z.odd (i + 1 + 1) = p)
      by (rewrite odd_next, H1; apply negb_involutive).
    destruct rest as [|b' rest'].
    + destruct b, p; cbn; unfold level; rewrite ?Hp, ?H1, ?H2; reflexivity.
    + change (on_air (b :: b' :: rest'))
        with ((if b then [true; false] else [false; true])
              ++ on_air (b' :: rest')).
      destruct b, p; cbn [app]; rewrite !pulses_of_chips_pair;
        cbn [Bool.eqb chips_of_pulses]; unfold level;
        rewrite ?Hp, ?H1.
      * rewrite (IH (i + 1) false H1). reflexivity.
      * rewrite (IH (i + 1 + 1) false H2). reflexivity.
      * rewrite (IH (i + 1 + 1) true H2). reflexivity.
      * rewrite (IH (i + 1) true H1). reflexivity.
Qed.

Lemma pulses_on_air (frame : list bool) :
  hd false frame = true ->
  chips_of_pulses 1 (pulses_of_chips (on_air frame)) = Some (on_air frame).
Proof.
  destruct frame as [|b [|b' rest']]; cbn [hd]; intros Hb;
    [discriminate|subst b; reflexivity|]. subst b.
  change (on_air (true :: b' :: rest'))
    with (true :: false :: on_air (b' :: rest')).
  rewrite pulses_of_chips_pair. cbn [Bool.eqb chips_of_pulses].
  rewrite (pulses_pending (b' :: rest') (1 + 1) false eq_refl).
  reflexivity.
Qed.

Lemma bits_value_app (a b : list bool) :
  bits_value (a ++ b) = bits_value a + 2 ^ len a * bits_value b.
Proof.
  induction a as [|x a IH];
    [cbn [app bits_value length]; change (2 ^ Z.of_nat 0) with 1; lia|].
  cbn [app bits_value length]. rewrite IH, Nat2Z.inj_succ, Z.pow_succ_r by lia.
  ring.
Qed.

Lemma on_air_value (frame : list bool) :
  bits_value (on_air frame) = bits_value (biphase_chips frame).
Proof.
  induction frame as [|b rest IH]; [reflexivity|].
  destruct rest as [|b' rest'].
  - destruct b; reflexivity.
  - change (on_air (b :: b' :: rest'))
      with ((if b then [true; false] else [false; true])
            ++ on_air (b' :: rest')).
    change (biphase_chips (b :: b' :: rest'))
      with ((if b then [true; false] else [false; true])
            ++ biphase_chips (b' :: rest')).
    rewrite !bits_value_app, IH. reflexivity.
Qed.

Lemma on_air_padded (frame : list bool) :
  frame <> [] ->
  len (on_air frame) <= 2 * len frame /\
  padded (len (on_air frame)) = 2 * len frame.
Proof.
  intros Hne.
  assert (Hlen : len (on_air frame) = 2 * len frame
                 \/ len (on_air frame) = 2 * len frame - 1).
  { induction frame as [|b rest IH]; [contradiction|].
    destruct rest as [|b' rest'].
    - destruct b; cbn; lia.
    - change (on_air (b :: b' :: rest'))
        with ((if b then [true; false] else [false; true])
              ++ on_air (b' :: rest')).
      rewrite length_app.
      assert (Hc : length (if b then [true; false] else [false; true]) = 2%nat)
        by (destruct b; reflexivity).
      rewrite Hc. specialize (IH ltac:(discriminate)).
      cbn [length] in *. lia. }
  assert (Hpos : 1 <= len frame) by (destruct frame; [contradiction|cbn; lia]).
  unfold padded. destruct Hlen as [-> | ->].
  - split; [lia|]. rewrite Z.mul_comm, Z.mod_mul by lia. reflexivity.
  - split; [lia|].
    replace (2 * len frame - 1) with (1 + (len frame - 1) * 2) by lia.
    rewrite Z.mod_add by lia. change (1 mod 2 =? 0) with false.
    cbv iota. lia.
Qed.

Lemma biphase_chips_nth (frame : list bool) :
  forall j : nat, (j < length frame)%nat ->
    nth (2 * j) (biphase_chips frame) false = nth j frame false /\
    nth (2 * j + 1) (biphase_chips frame) false = negb (nth j frame false).
Proof.
  induction frame as [|b rest IH]; intros j Hj; [cbn in Hj; lia|].
  change (biphase_chips (b :: rest))
    with ((if b then [true; false] else [false; true]) ++ biphase_chips rest).
  destruct j as [|j].
  - destruct b; split; reflexivity.
  - replace (2 * S j)%nat with (S (S (2 * j))) by lia.
    replace (S (S (2 * j)) + 1)%nat with (S (S (2 * j + 1))) by lia.
    cbn [length] in Hj. destruct (IH j ltac:(lia)) as [H0 H1].
    destruct b; cbn [app nth]; split; assumption.
Qed.

Lemma dissect_run_frame (B : Z) (frame : list bool) :
  forall (i : Z) (d : list bool),
    (forall j : nat, (j < length frame)%nat ->
        Z.testbit B (i + 2 * Z.of_nat j) = nth j frame false /\
        Z.testbit B (i + 2 * Z.of_nat j + 1) = negb (nth j frame false)) ->
    dissect_run B i (length frame) d = Some (d ++ frame).
Proof.
  induction frame as [|b rest IH]; intros i d Hbits.
  - cbn. rewrite app_nil_r. reflexivity.
  - cbn [length dissect_run].
    destruct (Hbits 0%nat ltac:(cbn; lia)) as [H0 H1].
    cbn [Z.of_nat nth] in H0, H1. rewrite Z.mul_0_r, Z.add_0_r in H0, H1.
    rewrite H0, H1. destruct b; cbn [negb Bool.eqb].
    + rewrite IH; [rewrite <- app_assoc; reflexivity|].
      intros j Hj. specialize (Hbits (S j) ltac:(cbn; lia)).
      cbn [nth] in Hbits.
      replace (i + 2 * Z.of_nat (S j)) with (i + 2 + 2 * Z.of_nat j) in Hbits
        by lia.
      exact Hbits.
    + rewrite IH; [rewrite <- app_assoc; reflexivity|].
      intros j Hj. specialize (Hbits (S j) ltac:(cbn; lia)).
      cbn [nth] in Hbits.
      replace (i + 2 * Z.of_nat (S j)) with (i + 2 + 2 * Z.of_nat j) in Hbits
        by lia.
      exact Hbits.
Qed.

Lemma dissect_run_biphase (frame : list bool) :
  dissect_run (bits_value (biphase_chips frame)) 0 (length frame) []
  = Some frame.
Proof.
  apply (dissect_run_frame _ frame 0 []).
  intros j Hj. destruct (biphase_chips_nth frame j Hj) as [H0 H1].
  replace (0 + 2 * Z.of_nat j) with (Z.of_nat (2 * j)) by lia.
  replace (Z.of_nat (2 * j) + 1) with (Z.of_nat (2 * j + 1)) by lia.
  rewrite !bits_value_testbit. split; assumption.
Qed.

Lemma map_testbit_range (l : list bool) (lo hi : Z) :
  0 <= lo <= hi -> hi <= len l ->
  map (Z.testbit (bits_value l)) (for_range lo hi 1)
  = firstn (Z.to_nat (hi - lo)) (skipn (Z.to_nat lo) l).
Proof.
  intros Hlo Hhi.
  assert (Hlen : length (for_range lo hi 1) = Z.to_nat (hi - lo))
    by (pose proof (for_range_length lo hi ltac:(lia)); lia).
  apply (nth_ext _ _ false false).
  - rewrite length_map, Hlen, length_firstn, length_skipn. lia.
  - intros j Hj. rewrite length_map, Hlen in Hj.
    rewrite (nth_map_any _ _ 0) by lia.
    rewrite for_range_nth by lia.
    rewrite nth_firstn, nth_skipn.
    destruct (Nat.ltb_spec j (Z.to_nat (hi - lo))); [|lia].
    replace (lo + Z.of_nat j) with (Z.of_nat (Z.to_nat lo + j)) by lia.
    apply bits_value_testbit.
Qed.

Lemma attempt_round_trip {P : Platform}
  (short_min short_max long_min long_max : Z) (r : decode_results)
  (frame : list bool) :
  hd false frame = true ->
  10 <= len frame <= 32 ->
  map (classify short_min short_max long_min long_max) (tl (rawbuf r))
  = pulses_of_chips (on_air frame) ->
  decodeRstepInternal short_min short_max long_min long_max r =
  Normal true
    {| decode_type := RSTEP;
       address := pack_msb_first (firstn 9 (tl frame));
       value := pack_msb_first (skipn 10 frame);
       bits := len frame - 10;
       rawbuf := rawbuf r |}.
Proof.
  intros Hstart Hlen Hmap.
  assert (Hne : frame <> []) by (intros ->; cbn in Hlen; lia).
  destruct (on_air_padded frame Hne) as [Hair Hpad].
  rewrite decodeRstepInternal_run.
  rewrite (cut_run_expand _ _ _ _ _ 1 [] (on_air frame))
    by (rewrite expand_pulses, Hmap; apply pulses_on_air; exact Hstart).
  cbn [app length].
  destruct (Z.leb_spec (Z.of_nat 0 + len (on_air frame)) 64); [|lia].
  rewrite Hpad, on_air_value.
  replace (Z.to_nat (2 * len frame / 2)) with (length frame)
    by (rewrite Z.mul_comm, Z.div_mul by lia; lia).
  rewrite dissect_run_biphase.
  destruct (Z.ltb_spec (len frame) 10); [lia|].
  rewrite decoded_fields by lia.
  change [1; 2; 3; 4; 5; 6; 7; 8; 9] with (for_range 1 10 1).
  rewrite !map_testbit_range by lia.
  change (Z.to_nat (10 - 1)) with 9%nat. change (Z.to_nat 1) with 1%nat.
  change (Z.to_nat 10) with 10%nat. change (skipn 1 frame) with (tl frame).
  rewrite (firstn_all2 (n := Z.to_nat (len frame - 10)))
    by (rewrite length_skipn; lia).
  reflexivity.
Qed.

(** X8. Round trip.  Take any frame of 10 to 32 data bits whose first bit,
    the start bit, is 1, put each bit on the air as the source draws it (1
    is a mark then a space, 0 a space then a mark) and capture it with
    durations inside the windows of a tick table.  The attempt with that
    table succeeds: the address is bits 1 to 9 of the frame, the value is
    the bits from 10 on, both most-significant-first, and the bit count is
    the frame length less 10.  With the 38 kHz table this is also the
    result of the top-level decode. *)
Theorem X8_round_trip {P : Platform} (r : decode_results)
  (frame : list bool) :
  hd false frame = true ->
  10 <= len frame <= 32 ->
  (forall short_min short_max long_min long_max : Z,
      map (classify short_min short_max long_min long_max) (tl (rawbuf r))
      = pulses_of_chips (on_air frame) ->
      decodeRstepInternal short_min short_max long_min long_max r =
      Normal true
        {| decode_type := RSTEP;
           address := pack_msb_first (firstn 9 (tl frame));
           value := pack_msb_first (skipn 10 frame);
           bits := len frame - 10;
           rawbuf := rawbuf r |}) /\
  (map (classify RSTEP_SHORT_PULSE_38k_MIN_TICKS RSTEP_SHORT_PULSE_38k_MAX_TICKS
          RSTEP_LONG_PULSE_38k_MIN_TICKS RSTEP_LONG_PULSE_38k_MAX_TICKS)
       (tl (rawbuf r))
   = pulses_of_chips (on_air frame) ->
   decodeRstep r =
   Normal true
     {| decode_type := RSTEP;
        address := pack_msb_first (firstn 9 (tl frame));
        value := pack_msb_first (skipn 10 frame);
        bits := len frame - 10;
        rawbuf := rawbuf r |}).
Proof.
  intros Hstart Hlen. split.
  - intros short_min short_max long_min long_max Hmap.
    apply attempt_round_trip; assumption.
  - intros Hmap. rewrite decodeRstep_attempts. unfold fast_attempt.
    rewrite (attempt_round_trip _ _ _ _ r frame Hstart Hlen Hmap).
    reflexivity.
Qed.

Lemma X8_round_trip_witness :
  hd false documented_frame = true /\
  10 <= len documented_frame <= 32 /\
  map (classify 2 6 7 11) (tl (rawbuf (fresh
    (50 :: map (fun p => match p with Short => 4 | _ => 9 end)
               documented_pulses))))
  = pulses_of_chips (on_air documented_frame) /\
  decodeRstepInternal (P := avr) 2 6 7 11
    (fresh (50 :: map (fun p => match p with Short => 4 | _ => 9 end)
                      documented_pulses))
  = Normal true
      (mk_decode_results RSTEP 429 30 8
         (50 :: map (fun p => match p with Short => 4 | _ => 9 end)
                    documented_pulses)) /\
  decodeRstep (P := avr) (fresh documented_capture)
  = Normal true (mk_decode_results RSTEP 429 30 8 documented_capture).
Proof.
  split; [reflexivity|]. split; [cbn; lia|]. split; [reflexivity|].
  split.
  - apply (proj1 (X8_round_trip (P := avr)
                    (fresh (50 :: map (fun p => match p with
                                                | Short => 4 | _ => 9 end)
                                      documented_pulses))
                    documented_frame eq_refl ltac:(cbn; lia)) 2 6 7 11).
    reflexivity.
  - apply (proj2 (X8_round_trip (P := avr) (fresh documented_capture)
                    documented_frame eq_refl ltac:(cbn; lia))).
    reflexivity.
Defined.

(** ** Captures of short pulses only *)

Lemma expand_all_short (short_min short_max long_min long_max : Z)
  (slots : list Z) :
  Forall (fun t => short_min <= t <= short_max) slots ->
  forall i,
    expand short_min short_max long_min long_max i slots
    = Some (alternating i (length slots)).
Proof.
  induction 1 as [|t rest Ht _ IH]; intros i; [reflexivity|].
  cbn [expand length alternating]. rewrite IH.
  unfold slot_chips, classify.
  destruct (Z.leb_spec short_min t), (Z.leb_spec t short_max); try lia.
  reflexivity.
Qed.

Lemma alternating_length (p : nat) : forall i, length (alternating i p) = p.
Proof. induction p as [|p IH]; intros i; cbn; [|rewrite IH]; reflexivity. Qed.

Lemma alternating_nth (p : nat) :
  forall (i : Z) (m : nat),
    nth m (alternating i p) false
    = if (m <? p)%nat then Z.odd (i + Z.of_nat m) else false.
Proof.
  induction p as [|p IH]; intros i m; [destruct m; reflexivity|].
  cbn [alternating]. destruct m as [|m].
  - cbn. unfold level. rewrite Z.add_0_r. reflexivity.
  - cbn [nth]. rewrite IH.
    replace (i + 1 + Z.of_nat m) with (i + Z.of_nat (S m)) by lia.
    reflexivity.
Qed.

Lemma repeat_true_nth (k m : nat) :
  (m < k)%nat -> nth m (repeat true k) false = true.
Proof.
  revert m. induction k as [|k IH]; intros m Hm; [lia|].
  destruct m as [|m]; [reflexivity|]. cbn. apply IH. lia.
Qed.

Lemma pack_ones (m : nat) : pack_msb_first (repeat true m) = 2 ^ Z.of_nat m - 1.
Proof.
  unfold pack_msb_first. fold (pack_from 0 (repeat true m)).
  induction m as [|m IH]; [reflexivity|].
  cbn [repeat].
  rewrite repeat_cons, pack_from_snoc, IH, Nat2Z.inj_succ, Z.pow_succ_r by lia.
  cbn [Z.b2z]. lia.
Qed.

Lemma map_testbit_ones (k : nat) (lo hi : Z) :
  0 <= lo <= hi -> hi <= Z.of_nat k ->
  map (Z.testbit (bits_value (repeat true k))) (for_range lo hi 1)
  = repeat true (Z.to_nat (hi - lo)).
Proof.
  intros Hlo Hhi.
  assert (Hlen : length (for_range lo hi 1) = Z.to_nat (hi - lo))
    by (pose proof (for_range_length lo hi ltac:(lia)); lia).
  apply (nth_ext _ _ false false).
  - rewrite length_map, Hlen, repeat_length. reflexivity.
  - intros j Hj. rewrite length_map, Hlen in Hj.
    rewrite (nth_map_any _ _ 0) by lia.
    rewrite for_range_nth by lia.
    replace (lo + Z.of_nat j) with (Z.of_nat (Z.to_nat lo + j)) by lia.
    rewrite bits_value_testbit, !repeat_true_nth by lia. reflexivity.
Qed.

Lemma attempt_all_short {P : Platform}
  (short_min short_max long_min long_max : Z) (r : decode_results) :
  19 <= rawlen r - 1 <= 64 ->
  Forall (fun t => short_min <= t <= short_max) (tl (rawbuf r)) ->
  decodeRstepInternal short_min short_max long_min long_max r =
  Normal true
    {| decode_type := RSTEP;
       address := 511;
       value := 2 ^ (rawlen r / 2 - 10) - 1;
       bits := rawlen r / 2 - 10;
       rawbuf := rawbuf r |}.
Proof.
  intros Hlen Hall.
  pose proof (tl_length r) as Htl.
  set (slots := tl (rawbuf r)) in *.
  set (p := length slots) in *.
  assert (Hp : Z.of_nat p = rawlen r - 1) by lia.
  rewrite decodeRstepInternal_run. fold slots.
  rewrite (cut_run_expand _ _ _ _ _ 1 [] (alternating 1 p))
    by (apply expand_all_short; exact Hall).
  cbn [app length]. rewrite alternating_length.
  destruct (Z.leb_spec (Z.of_nat 0 + Z.of_nat p) 64); [|lia].
  set (k := Z.to_nat (rawlen r / 2)).
  assert (Hdm := Z.div_mod (rawlen r) 2 ltac:(lia)).
  assert (Hmb := Z.mod_pos_bound (rawlen r) 2 ltac:(lia)).
  assert (Hk : padded (Z.of_nat p) = 2 * Z.of_nat k).
  { unfold padded. rewrite Hp.
    destruct (Z.eqb_spec ((rawlen r - 1) mod 2) 0) as [He|He].
    - assert (Hd1 := Z.div_mod (rawlen r - 1) 2 ltac:(lia)). unfold k. lia.
    - assert (Hd1 := Z.div_mod (rawlen r - 1) 2 ltac:(lia)).
      assert (Hm1 := Z.mod_pos_bound (rawlen r - 1) 2 ltac:(lia)).
      unfold k. lia. }
  rewrite ?alternating_length, Hk.
  replace (Z.to_nat (2 * Z.of_nat k / 2)) with (length (repeat true k))
    by (rewrite repeat_length, Z.mul_comm, Z.div_mul by lia; lia).
  rewrite (dissect_run_frame _ (repeat true k) 0 []).
  - cbn [app]. rewrite repeat_length.
    assert (Hk10 : 10 <= Z.of_nat k <= 32) by (unfold k; lia).
    destruct (Z.ltb_spec (Z.of_nat k) 10); [lia|].
    rewrite decoded_fields by lia.
    change [1; 2; 3; 4; 5; 6; 7; 8; 9] with (for_range 1 10 1).
    rewrite !map_testbit_ones by lia.
    rewrite !pack_ones.
    replace (Z.of_nat (Z.to_nat (Z.of_nat k - 10))) with (rawlen r / 2 - 10)
      by (unfold k; lia).
    replace (Z.of_nat k - 10) with (rawlen r / 2 - 10) by (unfold k; lia).
    reflexivity.
  - intros j Hj. rewrite repeat_length in Hj.
    rewrite repeat_true_nth by exact Hj.
    replace (0 + 2 * Z.of_nat j) with (Z.of_nat (2 * j)) by lia.
    replace (Z.of_nat (2 * j) + 1) with (Z.of_nat (2 * j + 1)) by lia.
    rewrite !bits_value_testbit, !alternating_nth.
    assert (Ho : Z.odd (1 + Z.of_nat (2 * j)) = true).
    { replace (1 + Z.of_nat (2 * j)) with (2 * Z.of_nat j + 1) by lia.
      apply Z.odd_odd. }
    assert (He : Z.odd (1 + Z.of_nat (2 * j + 1)) = false).
    { replace (1 + Z.of_nat (2 * j + 1)) with (2 * (Z.of_nat j + 1)) by lia.
      apply Z.odd_even. }
    rewrite Ho, He.
    destruct (Nat.ltb_spec (2 * j) p); [|lia].
    destruct (2 * j + 1 <? p)%nat; split; reflexivity.
Qed.

(** X9. A capture of 19 to 64 durations that all lie in the short window
    of a tick table decodes, with that table, as a frame of 1 bits only,
    whatever the durations are: address 0x1FF, a value of all ones and
    half the capture length less 10 as the bit count.  Durations of 4 to
    10 ticks are all short at 38 kHz, so for such a capture this is the
    result of the top-level decode, also when the capture is a 56 kHz
    frame whose long pulses measure 7 to 10 ticks. *)
Theorem X9_short_pulses_only {P : Platform} (r : decode_results) :
  19 <= rawlen r - 1 <= 64 ->
  (forall short_min short_max long_min long_max : Z,
      Forall (fun t => short_min <= t <= short_max) (tl (rawbuf r)) ->
      decodeRstepInternal short_min short_max long_min long_max r =
      Normal true
        {| decode_type := RSTEP;
           address := 511;
           value := 2 ^ (rawlen r / 2 - 10) - 1;
           bits := rawlen r / 2 - 10;
           rawbuf := rawbuf r |}) /\
  (Forall (fun t => 4 <= t <= 10) (tl (rawbuf r)) ->
   decodeRstep r =
   Normal true
     {| decode_type := RSTEP;
        address := 511;
        value := 2 ^ (rawlen r / 2 - 10) - 1;
        bits := rawlen r / 2 - 10;
        rawbuf := rawbuf r |}).
Proof.
  intros Hlen. split.
  - intros short_min short_max long_min long_max Hall.
    apply attempt_all_short; assumption.
  - intros Hall. rewrite decodeRstep_attempts. unfold fast_attempt.
    rewrite (attempt_all_short
               RSTEP_SHORT_PULSE_38k_MIN_TICKS RSTEP_SHORT_PULSE_38k_MAX_TICKS
               RSTEP_LONG_PULSE_38k_MIN_TICKS RSTEP_LONG_PULSE_38k_MAX_TICKS
               r Hlen Hall).
    reflexivity.
Qed.

Lemma X9_short_pulses_only_witness :
  19 <= rawlen (fresh
    (50 :: map (fun p => match p with Short => 4 | _ => 9 end)
               documented_pulses)) - 1 <= 64 /\
  slow_attempt (P := avr)
    (fresh (50 :: map (fun p => match p with Short => 4 | _ => 9 end)
                      documented_pulses))
  = Normal true
      (mk_decode_results RSTEP 429 30 8
         (50 :: map (fun p => match p with Short => 4 | _ => 9 end)
                    documented_pulses)) /\
  decodeRstep (P := avr)
    (fresh (50 :: map (fun p => match p with Short => 4 | _ => 9 end)
                      documented_pulses))
  = Normal true
      (mk_decode_results RSTEP 511 15 4
         (50 :: map (fun p => match p with Short => 4 | _ => 9 end)
                    documented_pulses)).
Proof.
  split; [cbn; lia|]. split; [reflexivity|].
  apply (proj2 (X9_short_pulses_only (P := avr)
                  (fresh (50 :: map (fun p => match p with
                                              | Short => 4 | _ => 9 end)
                                    documented_pulses))
                  ltac:(cbn; lia))).
  repeat constructor; cbn; lia.
Defined.

(** ** What a decoded capture looks like *)

Lemma biphase_chips_length (frame : list bool) :
  length (biphase_chips frame) = (2 * length frame)%nat.
Proof.
  induction frame as [|b rest IH]; [reflexivity|].
  change (biphase_chips (b :: rest))
    with ((if b then [true; false] else [false; true]) ++ biphase_chips rest).
  rewrite length_app, IH. destruct b; cbn [length]; lia.
Qed.

Lemma on_air_biphase (frame : list bool) :
  frame <> [] ->
  (last frame false = true -> on_air frame ++ [false] = biphase_chips frame) /\
  (last frame false = false -> on_air frame = biphase_chips frame).
Proof.
  induction frame as [|b rest IH]; intros Hne; [contradiction|].
  destruct rest as [|b' rest'].
  - cbn [last]. split; intros ->; reflexivity.
  - change (on_air (b :: b' :: rest'))
      with ((if b then [true; false] else [false; true])
            ++ on_air (b' :: rest')).
    change (biphase_chips (b :: b' :: rest'))
      with ((if b then [true; false] else [false; true])
            ++ biphase_chips (b' :: rest')).
    change (last (b :: b' :: rest') false) with (last (b' :: rest') false).
    destruct (IH ltac:(discriminate)) as [H1 H0]. split; intros Hl.
    + rewrite <- app_assoc, (H1 Hl). reflexivity.
    + rewrite (H0 Hl). reflexivity.
Qed.

Lemma biphase_chips_last (frame : list bool) :
  frame <> [] ->
  nth (2 * length frame - 1) (biphase_chips frame) false
  = negb (last frame false).
Proof.
  intros Hne.
  destruct (biphase_chips_nth frame (length frame - 1)) as [_ H];
    [destruct frame; [contradiction|cbn; lia]|].
  replace (2 * (length frame - 1) + 1)%nat with (2 * length frame - 1)%nat in H
    by (destruct frame; [contradiction|cbn [length]; lia]).
  rewrite H. f_equal.
  clear H. induction frame as [|b rest IH]; [contradiction|].
  destruct rest as [|b' rest']; [reflexivity|].
  cbn [length last] in *. rewrite <- IH by discriminate.
  replace (S (S (length rest')) - 1)%nat with (S (S (length rest') - 1)) by lia.
  reflexivity.
Qed.

Lemma expand_first (short_min short_max long_min long_max : Z)
  (slots : list Z) (i : Z) (l : list bool) :
  expand short_min short_max long_min long_max i slots = Some l ->
  l <> [] ->
  nth 0 l false = Z.odd i.
Proof.
  destruct slots as [|t rest]; cbn [expand]; intros H Hne.
  - injection H as <-. contradiction.
  - unfold slot_chips, level in H.
    destruct (classify short_min short_max long_min long_max t);
      try discriminate;
      destruct (expand short_min short_max long_min long_max (i + 1) rest);
      try discriminate; injection H as <-; reflexivity.
Qed.

Lemma nth_app_false (l : list bool) (m : nat) :
  nth m (l ++ [false]) false = nth m l false.
Proof.
  destruct (Nat.lt_ge_cases m (length l)).
  - apply app_nth1. assumption.
  - rewrite app_nth2, (nth_overflow l) by lia.
    destruct (m - length l)%nat as [|[|k]]; reflexivity.
Qed.

Lemma decoded_frame {P : Platform} (d : list bool) (r : decode_results) :
  10 <= len d <= 32 ->
  decoded (bits_value d) (len d) r =
  {| decode_type := RSTEP;
     address := pack_msb_first (firstn 9 (tl d));
     value := pack_msb_first (skipn 10 d);
     bits := len d - 10;
     rawbuf := rawbuf r |}.
Proof.
  intros Hn. rewrite decoded_fields by lia.
  change [1; 2; 3; 4; 5; 6; 7; 8; 9] with (for_range 1 10 1).
  rewrite !map_testbit_range by lia.
  change (Z.to_nat (10 - 1)) with 9%nat. change (Z.to_nat 1) with 1%nat.
  change (Z.to_nat 10) with 10%nat. change (skipn 1 d) with (tl d).
  rewrite (firstn_all2 (n := Z.to_nat (len d - 10)))
    by (rewrite length_skipn; lia).
  reflexivity.
Qed.

Lemma attempt_of_frame_chips {P : Platform}
  (short_min short_max long_min long_max : Z) (r : decode_results)
  (frame : list bool) :
  10 <= len frame <= 32 ->
  expand short_min short_max long_min long_max 1 (tl (rawbuf r))
  = Some (on_air frame) \/
  expand short_min short_max long_min long_max 1 (tl (rawbuf r))
  = Some (biphase_chips frame) ->
  decodeRstepInternal short_min short_max long_min long_max r =
  Normal true
    {| decode_type := RSTEP;
       address := pack_msb_first (firstn 9 (tl frame));
       value := pack_msb_first (skipn 10 frame);
       bits := len frame - 10;
       rawbuf := rawbuf r |}.
Proof.
  intros Hlen Hexp.
  assert (Hne : frame <> []) by (intros ->; cbn in Hlen; lia).
  destruct (on_air_padded frame Hne) as [Hair Hpad].
  assert (Hbp : padded (len (biphase_chips frame)) = 2 * len frame).
  { rewrite biphase_chips_length, Nat2Z.inj_mul. unfold padded.
    change (Z.of_nat 2) with 2.
    rewrite Z.mul_comm, Z.mod_mul by lia. reflexivity. }
  assert (Hk : Z.to_nat (2 * len frame / 2) = length frame)
    by (rewrite Z.mul_comm, Z.div_mul by lia; lia).
  rewrite decodeRstepInternal_run.
  destruct Hexp as [Hexp|Hexp];
    rewrite (cut_run_expand _ _ _ _ _ 1 [] _ Hexp); cbn [app length].
  - destruct (Z.leb_spec (Z.of_nat 0 + len (on_air frame)) 64); [|lia].
    rewrite Hpad, on_air_value, Hk, dissect_run_biphase.
    destruct (Z.ltb_spec (len frame) 10); [lia|].
    rewrite decoded_frame by lia. reflexivity.
  - pose proof (biphase_chips_length frame) as Hbl.
    destruct (Z.leb_spec (Z.of_nat 0 + len (biphase_chips frame)) 64); [|lia].
    rewrite Hbp, Hk, dissect_run_biphase.
    destruct (Z.ltb_spec (len frame) 10); [lia|].
    rewrite decoded_frame by lia. reflexivity.
Qed.

(** X10. The captures an attempt decodes are exactly the captures of
    frames.  The attempt succeeds with a result [out] if and only if the
    durations are all inside the windows and expand to the chips of a
    frame of 10 to 32 data bits with start bit 1 (each bit a mark then a
    space for 1, a space then a mark for 0, with or without the space of a
    last 1 bit) and [out] holds the address, value and bit count of that
    frame. *)
Theorem X10_decoded_capture_is_a_frame {P : Platform}
  (short_min short_max long_min long_max : Z) (r out : decode_results) :
  decodeRstepInternal short_min short_max long_min long_max r = Normal true out
  <->
  exists frame : list bool,
    hd false frame = true /\ 10 <= len frame <= 32 /\
    (expand short_min short_max long_min long_max 1 (tl (rawbuf r))
     = Some (on_air frame) \/
     expand short_min short_max long_min long_max 1 (tl (rawbuf r))
     = Some (biphase_chips frame)) /\
    out = {| decode_type := RSTEP;
             address := pack_msb_first (firstn 9 (tl frame));
             value := pack_msb_first (skipn 10 frame);
             bits := len frame - 10;
             rawbuf := rawbuf r |}.
Proof.
  split.
  2:{ intros (frame & _ & Hlen & Hexp & ->).
      apply attempt_of_frame_chips; assumption. }
  intros H.
  apply attempt_success in H as (l & d & Hrun & Hd & Hl & H2 & Hn & ->).
  exists d.
  assert (Hdne : d <> []) by (intros ->; cbn in Hn; lia).
  pose proof Hrun as Hexp.
  apply cut_run_chips in Hexp as (c & Hexp & Hlc & _); [|cbn; lia].
  cbn [app] in Hlc. subst c.
  apply dissect_run_some in Hd as (dl & Heq & Hlen & Hbits).
  cbn [app] in Heq. subst dl.
  assert (Hnth : forall m : nat, (m < 2 * length d)%nat ->
            nth m l false = nth m (biphase_chips d) false).
  { intros m Hm.
    pose proof (Nat.div_mod_eq m 2) as Hdm.
    pose proof (Nat.mod_upper_bound m 2 ltac:(lia)) as Hmb.
    remember (m / 2)%nat as j eqn:Ej.
    assert (Hj : (j < Z.to_nat (padded (len l) / 2))%nat) by lia.
    destruct (Hbits j Hj) as [H0 H1].
    destruct (biphase_chips_nth d j ltac:(lia)) as [B0 B1].
    replace (0 + 2 * Z.of_nat j + 1) with (Z.of_nat (2 * j + 1)) in H1 by lia.
    replace (0 + 2 * Z.of_nat j) with (Z.of_nat (2 * j)) in H0, H1 by lia.
    rewrite (bits_value_testbit l (2 * j)) in H0, H1.
    rewrite (bits_value_testbit l (2 * j + 1)) in H1.
    destruct (Nat.eq_dec (m mod 2) 0) as [E|E].
    - assert (Em : m = (2 * j)%nat) by lia. clear Ej Hdm Hmb E. subst m.
      rewrite B0, <- H0. reflexivity.
    - assert (Em : m = (2 * j + 1)%nat) by lia. clear Ej Hdm Hmb E. subst m.
      rewrite B1, H1, <- H0. reflexivity. }
  assert (Hlne : l <> []).
  { intros ->. change (padded (len (@nil bool))) with 0 in H2. lia. }
  assert (Hstart : hd false d = true).
  { destruct (Hbits 0%nat ltac:(lia)) as [H0 _].
    change (0 + 2 * Z.of_nat 0) with (Z.of_nat 0) in H0.
    rewrite bits_value_testbit, (expand_first _ _ _ _ _ _ _ Hexp Hlne) in H0.
    destruct d; [contradiction|exact H0]. }
  split; [exact Hstart|]. split; [exact Hn|]. split.
  - unfold padded in H2. destruct (Z.eqb_spec (len l mod 2) 0) as [He|He].
    + right. rewrite Hexp. f_equal.
      apply (nth_ext _ _ false false).
      * rewrite biphase_chips_length. lia.
      * intros m Hm. apply Hnth. lia.
    + left. rewrite Hexp. f_equal.
      assert (Hpad : l ++ [false] = biphase_chips d).
      { apply (nth_ext _ _ false false).
        - rewrite length_app, biphase_chips_length. cbn [length]. lia.
        - intros m Hm. rewrite length_app in Hm. cbn [length] in Hm.
          rewrite nth_app_false. apply Hnth. lia. }
      assert (Hlast : last d false = true).
      { pose proof (biphase_chips_last d Hdne) as Hb.
        rewrite <- Hpad, nth_app_false, nth_overflow in Hb by lia.
        destruct (last d false); [reflexivity|discriminate]. }
      destruct (on_air_biphase d Hdne) as [Hon _].
      specialize (Hon Hlast). rewrite <- Hpad in Hon.
      apply app_inj_tail in Hon as [Hon _]. symmetry. exact Hon.
  - apply decoded_frame. exact Hn.
Qed.

Lemma X10_decoded_capture_is_a_frame_witness :
  decodeRstepInternal (P := avr) 4 10 11 16 (fresh (100 :: repeat 6 19))
  = Normal true (mk_decode_results RSTEP 511 0 0 (100 :: repeat 6 19)) /\
  exists frame : list bool,
    hd false frame = true /\ 10 <= len frame <= 32 /\
    (expand 4 10 11 16 1 (tl (rawbuf (fresh (100 :: repeat 6 19))))
     = Some (on_air frame) \/
     expand 4 10 11 16 1 (tl (rawbuf (fresh (100 :: repeat 6 19))))
     = Some (biphase_chips frame)).
Proof.
  split; [reflexivity|].
  destruct (proj1 (X10_decoded_capture_is_a_frame (P := avr) 4 10 11 16
              (fresh (100 :: repeat 6 19))
              (mk_decode_results RSTEP 511 0 0 (100 :: repeat 6 19))) eq_refl)
    as (frame & Hs & Hl & Hexp & _).
  exists frame. repeat split; try assumption; apply Hl.
Defined.

(** ** Durations no table accepts *)

Lemma classify_outside (t : Z) :
  t < 2 \/ 16 < t ->
  classify RSTEP_SHORT_PULSE_38k_MIN_TICKS RSTEP_SHORT_PULSE_38k_MAX_TICKS
    RSTEP_LONG_PULSE_38k_MIN_TICKS RSTEP_LONG_PULSE_38k_MAX_TICKS t = Invalid /\
  classify RSTEP_SHORT_PULSE_56k_MIN_TICKS RSTEP_SHORT_PULSE_56k_MAX_TICKS
    RSTEP_LONG_PULSE_56k_MIN_TICKS RSTEP_LONG_PULSE_56k_MAX_TICKS t = Invalid.
Proof.
  intros Ht. unfold classify.
  cbv [RSTEP_SHORT_PULSE_38k_MIN_TICKS RSTEP_SHORT_PULSE_38k_MAX_TICKS
       RSTEP_LONG_PULSE_38k_MIN_TICKS RSTEP_LONG_PULSE_38k_MAX_TICKS
       RSTEP_SHORT_PULSE_56k_MIN_TICKS RSTEP_SHORT_PULSE_56k_MAX_TICKS
       RSTEP_LONG_PULSE_56k_MIN_TICKS RSTEP_LONG_PULSE_56k_MAX_TICKS].
  destruct (Z.leb_spec 4 t), (Z.leb_spec t 10), (Z.leb_spec 11 t),
    (Z.leb_spec t 16), (Z.leb_spec 2 t), (Z.leb_spec t 6), (Z.leb_spec 7 t),
    (Z.leb_spec t 11); try lia; split; reflexivity.
Qed.

(** X11. A duration below 2 ticks or above 16 ticks is outside the windows
    of both tick tables.  A capture that holds one is never decoded by the
    top-level decode, and when it is the first duration after the gap (the
    long header mark of another protocol, say) the decode returns the
    failure signal at that slot, the result untouched, however long the
    capture is. *)
Theorem X11_foreign_duration {P : Platform} (r : decode_results) :
  (forall gap t rest,
      rawbuf r = gap :: t :: rest -> t < 2 \/ 16 < t ->
      decodeRstep r = Normal false r) /\
  (forall t,
      In t (tl (rawbuf r)) -> t < 2 \/ 16 < t ->
      forall out, decodeRstep r <> Normal true out).
Proof.
  split.
  - intros gap t rest Hbuf Ht.
    destruct (classify_outside t Ht) as [Hfast Hslow].
    assert (Hf : fast_attempt r = Normal false r).
    { unfold fast_attempt. rewrite decodeRstepInternal_run, Hbuf.
      cbn [tl cut_run]. unfold slot_chips. rewrite Hfast. reflexivity. }
    assert (Hs : slow_attempt r = Normal false r).
    { unfold slow_attempt. rewrite decodeRstepInternal_run, Hbuf.
      cbn [tl cut_run]. unfold slot_chips. rewrite Hslow. reflexivity. }
    rewrite decodeRstep_attempts, Hf, Hs. reflexivity.
  - intros t Hin Ht out H.
    destruct (classify_outside t Ht) as [Hfast Hslow].
    apply decodeRstep_success in H as [H|[_ H]];
      apply attempt_success in H as (l & d & Hrun & _);
      (apply cut_run_chips in Hrun as (c & Hexp & _); [|cbn; lia]).
    + rewrite (expand_invalid _ _ _ _ _ t Hin Hfast) in Hexp. discriminate.
    + rewrite (expand_invalid _ _ _ _ _ t Hin Hslow) in Hexp. discriminate.
Qed.

Lemma X11_foreign_duration_witness :
  rawbuf (fresh (100 :: 180 :: repeat 11 80)) = 100 :: 180 :: repeat 11 80 /\
  (180 < 2 \/ 16 < 180) /\
  decodeRstep (P := avr) (fresh (100 :: 180 :: repeat 11 80))
  = Normal false (fresh (100 :: 180 :: repeat 11 80)).
Proof.
  split; [reflexivity|]. split; [right; lia|].
  apply (proj1 (X11_foreign_duration (P := avr)
                  (fresh (100 :: 180 :: repeat 11 80)))
           100 180 (repeat 11 80)); [reflexivity|right; lia].
Defined.

(** ** When an attempt is undefined *)

Lemma cut_run_overflow (short_min short_max long_min long_max : Z)
  (slots : list Z) :
  forall (i : Z) (l : list bool),
    cut_run short_min short_max long_min long_max i slots l = Overflow ->
    exists pre post c,
      slots = pre ++ post /\
      expand short_min short_max long_min long_max i pre = Some c /\
      64 < len l + len c.
Proof.
  induction slots as [|t rest IH]; intros i l H; [discriminate|].
  cbn [cut_run] in H.
  destruct (slot_chips short_min short_max long_min long_max i t) as [c1|] eqn:Hc1;
    [|discriminate].
  destruct (Z.leb_spec (len l + len c1) 64).
  - apply IH in H as (pre & post & c & -> & Hexp & Hlen).
    exists (t :: pre), post, (c1 ++ c). split; [reflexivity|].
    cbn [expand]. rewrite Hc1, Hexp. split; [reflexivity|].
    rewrite length_app in *. lia.
  - exists [t], rest, (c1 ++ []). split; [reflexivity|].
    cbn [expand]. rewrite Hc1. split; [reflexivity|].
    rewrite app_nil_r. lia.
Qed.

Lemma cut_run_prefix_overflow (short_min short_max long_min long_max : Z)
  (pre post : list Z) :
  forall (i : Z) (l c : list bool),
    len l <= 64 ->
    expand short_min short_max long_min long_max i pre = Some c ->
    64 < len l + len c ->
    cut_run short_min short_max long_min long_max i (pre ++ post) l = Overflow.
Proof.
  induction pre as [|t pre IH]; intros i l c Hl Hexp Hlen.
  - cbn in Hexp. injection Hexp as <-. cbn [length] in Hlen. lia.
  - cbn [app cut_run expand] in *.
    destruct (slot_chips short_min short_max long_min long_max i t) as [c1|];
      [|discriminate].
    destruct (expand short_min short_max long_min long_max (i + 1) pre)
      as [cs|] eqn:Hcs; [|discriminate].
    injection Hexp as <-. rewrite length_app in Hlen.
    destruct (Z.leb_spec (len l + len c1) 64); [|reflexivity].
    apply (IH (i + 1) (l ++ c1) cs); rewrite ?length_app; try lia.
    exact Hcs.
Qed.

(** X12. An attempt is undefined exactly when the capture has a first part
    whose durations are all inside the windows and expand to more than 64
    chips: then, and only then, a shift count of Part I reaches 64.  Parts
    II and III and the copy loops never shift by 64 or more. *)
Theorem X12_undefined_exactly {P : Platform}
  (short_min short_max long_min long_max : Z) (r : decode_results) :
  decodeRstepInternal short_min short_max long_min long_max r = Undefined
  <->
  exists pre post c,
    tl (rawbuf r) = pre ++ post /\
    expand short_min short_max long_min long_max 1 pre = Some c /\
    64 < len c.
Proof.
  rewrite decodeRstepInternal_run. split.
  - destruct (cut_run short_min short_max long_min long_max 1 (tl (rawbuf r)) [])
      as [| |l] eqn:Hrun.
    + intros _. apply cut_run_overflow in Hrun as (pre & post & c & H1 & H2 & H3).
      exists pre, post, c. cbn [length] in H3. repeat split; try assumption; lia.
    + discriminate.
    + destruct (dissect_run (bits_value l) 0 (Z.to_nat (padded (len l) / 2)) [])
        as [d|]; [destruct (len d <? 10)|]; discriminate.
  - intros (pre & post & c & Hbuf & Hexp & Hlen).
    rewrite Hbuf.
    rewrite (cut_run_prefix_overflow _ _ _ _ pre post 1 [] c);
      [reflexivity|cbn; lia|exact Hexp|cbn [length]; lia].
Qed.

Lemma X12_undefined_exactly_witness :
  decodeRstepInternal (P := avr) 4 10 11 16 (fresh (100 :: repeat 13 33 ++ [0]))
  = Undefined /\
  exists pre post c,
    tl (rawbuf (fresh (100 :: repeat 13 33 ++ [0]))) = pre ++ post /\
    expand 4 10 11 16 1 pre = Some c /\ 64 < len c.
Proof.
  split.
  - apply (proj2 (X12_undefined_exactly (P := avr) 4 10 11 16
                    (fresh (100 :: repeat 13 33 ++ [0])))).
    exists (repeat 13 33), [0].
    eexists. split; [reflexivity|]. split; [reflexivity|]. cbn. lia.
  - apply (proj1 (X12_undefined_exactly (P := avr) 4 10 11 16
                    (fresh (100 :: repeat 13 33 ++ [0])))).
    reflexivity.
Defined.
